(* ===== verification/_CoqProject ===== *)
-Q . S2P
Prelude.v
Argmax.v
Segmenter.v
PyStr.v
Keywords.v
TimeFmt.v
Aligner.v
Detector.v
Softmax.v
Controller.v
