(* ===== verification/Prelude.v ===== *)
(** * A verification library for the NeMo audio profanity detector

    The repository is a PyQt5 desktop application, one Python file,
    [src/main/python/main_window.py].  It loads a NeMo CTC speech model,
    converts an audio file to 16 kHz mono WAV with ffmpeg, transcribes it,
    and reports every occurrence of a user-typed "bad word" with the time
    at which it is spoken.

    ** The program's parts and how they interact

    - [MainWindow] (lines 16-156): the controller.  Its state is the loaded
      model, the chosen file, the parsed keyword list and the three worker
      threads; its Qt slots react to button clicks and to the threads'
      [finished] and [progress] signals.
    - [MainWindow.get_bad_words] (lines 94-99): parses the keyword box
      (lower-case, collapse white space, split at commas, strip).
    - [ModelLoadingThread], [ConvertThread] (lines 159-212): workers that
      restore the model and start ffmpeg; they report with [finished].
    - [DetectorThread] (lines 215-289): the core.  Its [run] transcribes
      the file, applies a soft-max to the log-probabilities, scans the
      frames with a two-state machine to find the runs of "space" frames
      (the segmenter, lines 244-268), then walks the runs and the words
      of the transcript together (the aligner, lines 269-284) and emits one
      [progress] string per word that contains a keyword.

    ** Files of the development, in dependency order

    - [Prelude] (this file): the Python exceptions [PyExc], the result
      monad [res] with its notations [x <-? m ;; k] and [raise e] (scope
      [py_scope]), [py_index] for [xs[i]] (IndexError out of range), the
      hint database [align], the tactics [case_bools], [nat_eqb_to_prop]
      and [zdiv_lia], generic lemmas on sorted lists, and the reflexive
      transitive closure [star] with its induction principle [star_inv],
      and [wf_no_chain] (a well-founded step relation has no infinite
      sequence of steps).
    - [Argmax]: [np.argmax] over the interface [ScoreOrder] (a strict weak
      order with a boolean test, instances for [Z] and [Q]): first maximal
      index, ValueError on an empty row, invariance under order embeddings
      (the lemma that lets the soft-max keep the arg-maxes).
    - [Segmenter] ([Module Segmenter]): lines 244-268 as a state machine;
      [seg_state] is the record of the locals [state], [idx_state],
      [spaces]; [seg_step] is the body of the [for idx] loop, [seg_loop]
      the loop, [seg_finish] lines 267-268, [space_runs] the whole scan
      and [get_spaces] the scan of the arg-maxes.  [runs_spec] is the
      abstract specification (maximal space-initiated runs); the loop
      invariant [seg_inv] proves that the code computes exactly it.
    - [PyStr] ([Module PyStr]): the string methods the code calls:
      [str.split()], [" ".join], [lower], [strip], [split(",")], and the
      substring test [in].
    - [Keywords] ([Module Keywords]): [MainWindow.get_bad_words].
    - [TimeFmt] ([Module TimeFmt]): [time.gmtime] and
      [time.strftime("%H:%M:%S", ...)], with a reader for the round trip.
    - [Aligner] ([Module Aligner]): lines 269-284; [cut_loop] is the
      [for j, spot] loop returning the emitted lines and how it ended;
      [matches] is its specification as a filter over the words [words[1:]]
      zipped with the boundaries.
    - [Detector] ([Module Detector]): [DetectorThread.run] composing the
      transcription, the soft-max, the segmenter and the aligner, with the
      [try]/[except]/[finally] as a list of signals and a logged exception.
    - [Softmax] ([Module Softmax]): [DetectorThread.softmax] (lines
      228-230) over exact rationals [Q]: [np_max], the row sums [q_sum],
      [softmax_row] and [py_softmax]; [np.exp] is a section parameter.
    - [Controller] ([Module Controller]): [MainWindow], its slots and the
      three worker threads as one transition system on [world]:
      [sys_step] (a worker runs, the event loop delivers a queued signal,
      an ffmpeg process finishes) and [step] (also a click on an enabled
      widget); [reachable] is [star step] from [init_world].  The thread
      attributes of [MainWindow] are live or destroyed [qthread]s, and
      [closeEvent] (lines 40-59) terminates them in turn.

    ** What the theorems show

    - The segmenter computes exactly the maximal space-initiated runs
      ([space_runs_characterization]), with the degenerate inputs
      ([space_runs_all_space], [space_runs_no_space]); [np.argmax] picks
      the first maximum ([np_argmax_first_max]).
    - The aligner emits exactly the specified matches when the transcript
      is long enough ([cut_correct]), raises IndexError lazily otherwise
      ([cut_index_error]); on every input its lines come in time order
      ([cut_chronological]) and each is sound ([cut_sound]); the first match can end before it starts
      ([first_match_ends_before_start]).
    - The detector thread always finishes ([run_finishes]) and, with the
      code's soft-max, reports the aligner's matches
      ([run_softmax_reports_matches]); a trailing comma in the
      keyword box reports every word ([trailing_comma_reports_all]).
    - The controller keeps the spinner, the enabled state and the jobs in
      flight in step ([reachable_ui_inv]); a failed model load freezes the
      window ([load_failure_freezes]); the result of a detection depends
      on whether ffmpeg finishes before the detector reads the WAV: end to
      end, the window shows exactly the specified matches when it does
      ([detection_reports_matches]) and nothing, with OSError in
      [log.txt], when it does not ([detection_before_ffmpeg]); a second
      detection reports nothing ([restart_reports_nothing]); when [Popen]
      raises the run ends with no result and two errors logged
      ([detection_without_ffmpeg]).  [Start] starts a conversion
      exactly when its three guards pass ([start_guards]).
    - Without clicks the workers, the event loop and ffmpeg always come to
      rest: no infinite sequence of moves ([sys_step_terminates], by a
      lexicographic measure: the work a job or signal still causes, then
      the queued signals and running processes).
    - The slots never meet a destroyed thread ([reachable_threads_inv]),
      but [closeEvent] does: once a model is loaded it raises on the
      destroyed model thread and never stops a conversion
      ([close_keeps_conversions]).
    - The soft-max: [np.max] is the largest entry ([np_max_spec]); its
      rows are probability distributions
      ([softmax_rows_distribution]); with it the detector reports the
      specified matches with no hypothesis on the soft-max
      ([run_softmax_reports_matches]).
    - The keyword box: the list is empty exactly when the box holds no
      word ([get_bad_words_nil]), every keyword is lower case and stripped
      ([get_bad_words_normal]); the code does not lower the words of the
      transcript and misses capitalised ones (the example
      [keyword_match_case_sensitive]).
    - The string and time helpers: [py_contains_spec], [gmtime_fields],
      [fmt_time_roundtrip], [fmt_time_negative].

    ** Modelling choices and bounds

    - Times are integer milliseconds.  The code computes
      [-0.18 + (a + b) / 2 * 0.02] seconds; in ms this is
      [-180 + (a + b) * 20 / 2], an integer since [(a + b) * 20] is even,
      so the model is exact where the floats are exact; floating-point
      rounding of the Python value and NaN are not modelled.  The rounding
      shows where the exact value is a whole second: for [a + b = 418]
      Python computes [3.9999999999999996] and prints [00:00:03] where the
      model prints [00:00:04] (again at [a + b = 204818]).  [gmtime]
      floors to seconds and reduces modulo a day as CPython does on POSIX
      systems; on Windows (the code has a branch for it, line 190)
      [time.gmtime] of a negative time raises OSError, which is not
      modelled.
    - Scores are any [ScoreOrder].  [Detector] takes the soft-max as a
      parameter, assumed where a theorem needs it to be a row-wise order
      embedding; [Softmax] computes the code's soft-max in [Q] and proves
      that it is one, for any [exp] that is positive, strictly increasing
      and compatible with [==] on [Q].
    - [deleteLater] destroys the object when the slot that calls it
      returns to the event loop, before the next click; a method called on
      the Python wrapper of a destroyed object raises [RuntimeError].
    - The model is a parameter [asr] from the audio to the transcript and
      the logits; ffmpeg writes a WAV of the same audio.  A missing file
      makes [transcribe] raise, tagged OSError (NeMo's exception type is
      not in the sources), and one read of the disk serves both calls.
    - ffmpeg writes its output in one step when it ends, replacing
      [outfile].  Real ffmpeg creates [outfile] when it starts, so the
      [QFile.remove] of a later conversion unlinks a running process's
      output for good on POSIX, and without [-y] it does not overwrite an
      existing output.  No theorem depends on a process that outlives the
      removal of its output: the schedules of [detection_reports_matches],
      [detection_before_ffmpeg], [detection_without_ffmpeg] and
      [restart_reports_nothing] start with no ffmpeg process running, and
      each starts at most one.
    - An exception escaping [ModelLoadingThread.run] ([load_failure_freezes])
      is taken to leave the application running with the window as it
      is; PyQt5's default excepthook would instead abort it, and the entry
      point that may install another hook is not in the sources.
    - Every loop is structural recursion over a list: no fuel is needed,
      and every function of the model is total.
    - Strings are Rocq [string]s of 8-bit characters; [lower] and
      [isspace] are Python's on that range.

    ** Not modelled

    The drawing of the spinner (its parameters of lines 28-38 are the
    constant [spinner_init]), the generated [Ui_MainWindow] and
    [QtWaitingSpinner] (not in the sources), Unicode beyond code point 255
    in the keyword box (the transcript of the model is ASCII), the internals of NeMo and
    ffmpeg (parameters), floating-point rounding, overflow, underflow and
    NaN (the arithmetic is exact), a WAV file half written by ffmpeg
    (ffmpeg writes in one step), and a thread killed by [terminate] in the
    middle of its [run] (a [run] is one atomic step).  The imports hold
    no behaviour, and the constructors of the thread classes (lines
    162-164, 181-184, 219-226) only store their arguments, which are the
    arguments of the [job] the thread runs. *)

From stdpp Require Export base list strings.
From Stdlib Require Export ZArith Lia Sorted.

(** ** Python exceptions and the result monad

    The Python code signals failure by raising; the exceptions the modelled
    lines can raise are the constructors of [PyExc].  A computation that can
    raise returns a value of [res A]: [inl e] is the exception [e], [inr x]
    the normal result [x]. *)

Inductive PyExc : Type :=
| IndexError          (** [xs[i]] with [i] out of range *)
| ValueError          (** [np.max] / [np.argmax] of an empty array *)
| UnboundLocalError   (** a local read before any assignment *)
| OSError             (** a file that does not exist *)
| RuntimeError        (** a method called on a destroyed Qt object *)
| ExternalError.      (** raised inside NeMo or ffmpeg, opaque to the program *)

#[export] Instance PyExc_eq_dec : EqDecision PyExc.
Proof. solve_decision. Defined.

Definition res (A : Type) : Type := (PyExc + A)%type.

Definition res_bind {A B : Type} (m : res A) (k : A -> res B) : res B :=
  match m with
  | inl e => inl e
  | inr x => k x
  end.

Declare Scope py_scope.
Delimit Scope py_scope with py.
Notation "x <-? m ;; k" := (res_bind m (fun x => k))
  (at level 100, m at next level, right associativity) : py_scope.
Notation "'raise' e" := (@inl PyExc _ e) (at level 10) : py_scope.
Open Scope py_scope.

(** Python's [xs[i]] for a non-negative index: [IndexError] out of range. *)
Definition py_index {A : Type} (xs : list A) (i : nat) : res A :=
  match xs !! i with
  | Some x => inr x
  | None => raise IndexError
  end.

(** [mapM] for [res]: the first exception aborts the traversal. *)
Fixpoint res_mapM {A B : Type} (f : A -> res B) (xs : list A) : res (list B) :=
  match xs with
  | [] => inr []
  | x :: xs' => y <-? f x ;; ys <-? res_mapM f xs' ;; inr (y :: ys)
  end.

(** ** Automation *)

Create HintDb align discriminated.
Create Rewrite HintDb align.

(** Case analysis on the boolean tests of the models. *)
Ltac case_bools :=
  repeat match goal with
  | |- context [if ?b then _ else _] =>
      lazymatch b with
      | context [if _ then _ else _] => fail
      | _ => destruct b eqn:?
      end
  end.

(** Rewrite [Nat.eqb] tests into equalities in hypotheses and goal. *)
Ltac nat_eqb_to_prop :=
  repeat match goal with
  | H : (_ =? _)%nat = true |- _ => apply Nat.eqb_eq in H
  | H : (_ =? _)%nat = false |- _ => apply Nat.eqb_neq in H
  end.

(** ** Generic lemmas on the result monad and on lists *)

Lemma res_bind_inr {A B : Type} (x : A) (k : A -> res B) :
  res_bind (inr x) k = k x.
Proof. reflexivity. Qed.

Lemma res_mapM_length {A B : Type} (f : A -> res B) xs ys :
  res_mapM f xs = inr ys -> length ys = length xs.
Proof.
  revert ys; induction xs as [|x xs IH]; intros ys H; simpl in H.
  - by injection H as <-.
  - destruct (f x) as [e|y]; [done|]; simpl in H.
    destruct (res_mapM f xs) as [e|ys'] eqn:E; [done|]; simpl in H.
    injection H as <-. simpl. by rewrite (IH ys').
Qed.

Lemma res_mapM_lookup {A B : Type} (f : A -> res B) xs ys i x :
  res_mapM f xs = inr ys -> xs !! i = Some x ->
  exists y, f x = inr y /\ ys !! i = Some y.
Proof.
  revert ys i; induction xs as [|x0 xs IH]; intros ys i H Hi; [done|].
  simpl in H. destruct (f x0) as [e|y0] eqn:Ef; [done|]; simpl in H.
  destruct (res_mapM f xs) as [e|ys'] eqn:E; [done|]; simpl in H.
  injection H as <-. destruct i as [|i]; simpl in Hi.
  - injection Hi as <-. by exists y0.
  - by apply (IH ys' i).
Qed.

Lemma py_index_Some {A : Type} (xs : list A) i x :
  xs !! i = Some x -> py_index xs i = inr x.
Proof. intros H. unfold py_index. by rewrite H. Qed.

Lemma py_index_None {A : Type} (xs : list A) i :
  length xs <= i -> py_index xs i = raise IndexError.
Proof. intros H. unfold py_index. by rewrite (proj2 (lookup_ge_None _ _) H). Qed.

#[export] Hint Resolve py_index_Some py_index_None : align.
#[export] Hint Rewrite @res_bind_inr : align.

(** [Sorted] grows at the end when the new last element is related to the
    old last one. *)
Lemma Sorted_snoc {A : Type} (R : A -> A -> Prop) (l : list A) (x : A) :
  Sorted R l -> (forall y, last l = Some y -> R y x) -> Sorted R (l ++ [x]).
Proof.
  induction 1 as [|y l Hl IH Hhd]; intros Hlast; simpl.
  - by repeat constructor.
  - constructor.
    + apply IH. intros z Hz. apply Hlast. destruct l; [done|]. done.
    + destruct l as [|z l]; simpl.
      * constructor. by apply Hlast.
      * inversion Hhd; subst. by constructor.
Qed.

Lemma Forall_last {A : Type} (P : A -> Prop) (l : list A) (y : A) :
  Forall P l -> last l = Some y -> P y.
Proof.
  intros HF Hl. apply last_Some_elem_of in Hl.
  by eapply Forall_forall in HF; [|exact Hl].
Qed.

(** ** Strictly sorted lists

    A relation that is transitive, irreflexive and asymmetric on the
    elements satisfying [P]: a list sorted by it is sorted strongly, and
    it is determined by its elements. *)

Section StrictSorted.
Context {A : Type} (R : A -> A -> Prop) (P : A -> Prop).

Lemma HdRel_Forall_on
  (Htrans : forall x y z, P x -> P y -> P z -> R x y -> R y z -> R x z) x l :
  P x -> Forall P l -> Sorted R l -> HdRel R x l -> Forall (R x) l.
Proof.
  intros Px; induction l as [|y l IH]; intros Pl HS Hhd; [constructor|].
  inversion Hhd as [|? ? Rxy]; subst. inversion Pl as [|? ? Py Pl']; subst.
  inversion HS as [|? ? HS' Hhd']; subst. constructor; [done|].
  apply IH; [done|done|]. destruct l as [|z l]; [constructor|].
  inversion Hhd' as [|? ? Ryz]; subst. inversion Pl'; subst.
  constructor. by apply (Htrans x y z).
Qed.

Lemma Sorted_StronglySorted_on :
  (forall x y z, P x -> P y -> P z -> R x y -> R y z -> R x z) ->
  forall l, Forall P l -> Sorted R l -> StronglySorted R l.
Proof.
  intros Htrans l HP HS. induction HS as [|x l HS IH Hhd]; constructor;
    inversion HP; subst; [by apply IH|by apply HdRel_Forall_on].
Qed.

Lemma StronglySorted_ext :
  (forall x, P x -> ~ R x x) -> (forall x y, P x -> P y -> R x y -> ~ R y x) ->
  forall l1 l2, Forall P l1 -> StronglySorted R l1 -> StronglySorted R l2 ->
  (forall x, In x l1 <-> In x l2) -> l1 = l2.
Proof.
  intros Hirr Hasym l1; induction l1 as [|x l1 IH]; intros l2 HP HS1 HS2 Hiff.
  - destruct l2 as [|y l2]; [done|]. exfalso. apply (Hiff y). by left.
  - destruct l2 as [|y l2]; [exfalso; apply (Hiff x); by left|].
    inversion HS1 as [|? ? HS1' Hx]; inversion HS2 as [|? ? HS2' Hy]; subst.
    assert (HP2 : forall z, In z (y :: l2) -> P z).
    { intros z Hz. apply Hiff in Hz. by eapply Forall_forall in HP; [|apply list_elem_of_In]. }
    assert (Hxy : x = y).
    { destruct (proj1 (Hiff x) (or_introl eq_refl)) as [->|Hx2]; [done|].
      destruct (proj2 (Hiff y) (or_introl eq_refl)) as [<-|Hy1]; [done|].
      exfalso. eapply Forall_forall in Hx; [|apply list_elem_of_In, Hy1].
      eapply Forall_forall in Hy; [|apply list_elem_of_In, Hx2].
      apply (Hasym x y); [by apply HP2; right| by apply HP2; left|done|done]. }
    subst y. f_equal. apply IH; [by inversion HP|done|done|].
    intros z. split; intros Hz.
    + destruct (proj1 (Hiff z) (or_intror Hz)) as [<-|]; [|done].
      exfalso. eapply Forall_forall in Hx; [|apply list_elem_of_In, Hz].
      apply (Hirr x); [by apply HP2; left|done].
    + destruct (proj2 (Hiff z) (or_intror Hz)) as [<-|]; [|done].
      exfalso. eapply Forall_forall in Hy; [|apply list_elem_of_In, Hz].
      apply (Hirr x); [by apply HP2; left|done].
Qed.
End StrictSorted.

(** Arithmetic with [Z.div] and [Z.modulo] by constants. *)
Ltac zdiv_lia := Z.to_euclidean_division_equations; lia.

Lemma Forall_impl2 {A : Type} (P Q R : A -> Prop) (l : list A) :
  Forall P l -> Forall Q l -> (forall x, P x -> Q x -> R x) -> Forall R l.
Proof. intros HP HQ H. induction HP; inversion HQ; subst; constructor; auto. Qed.

Lemma filter_all_true {A : Type} (f : A -> bool) (l : list A) :
  (forall x, In x l -> f x = true) -> List.filter f l = l.
Proof.
  induction l as [|x l IH]; intros Hall; simpl; [done|].
  rewrite (Hall x (or_introl eq_refl)). f_equal. apply IH. intros y Hy. apply Hall. by right.
Qed.

(** ** Transition sequences

    Zero or more steps of a relation: the reflexive transitive closure, as
    in the sequences library of the mechanised-semantics course. *)

Section Star.
Context {A : Type} (R : A -> A -> Prop).

Inductive star : A -> A -> Prop :=
| star_refl a : star a a
| star_step a b c : R a b -> star b c -> star a c.

Lemma star_one a b : R a b -> star a b.
Proof. eauto using star. Qed.

Lemma star_trans a b c : star a b -> star b c -> star a c.
Proof. induction 1; eauto using star. Qed.

(** An invariant of every step holds along every sequence. *)
Lemma star_inv (I : A -> Prop) :
  (forall a b, R a b -> I a -> I b) -> forall a b, star a b -> I a -> I b.
Proof. intros Hstep a b Hs. induction Hs; eauto. Qed.

(** A relation whose converse is well founded has no infinite sequence of
    steps (the constructive half of the classical definition). *)
Lemma wf_no_chain : well_founded (fun b a => R a b) -> ~ exists f : nat -> A, forall i, R (f i) (f (S i)).
Proof.
  intros Hwf [f Hf].
  assert (Hall : forall a, Acc (fun b a => R a b) a ->
                 forall g : nat -> A, g 0 = a -> (forall i, R (g i) (g (S i))) -> False).
  { intros a Hacc. induction Hacc as [a _ IH]. intros g Hg0 Hg.
    apply (IH (g 1) ltac:(rewrite <- Hg0; apply Hg) (fun i => g (S i)) eq_refl).
    intros i. apply Hg. }
  exact (Hall (f 0) (Hwf (f 0)) f eq_refl Hf).
Qed.
End Star.

Arguments star_refl {A R} a.
Arguments star_step {A R} a b c.

Lemma existsb_middle {A : Type} (f : A -> bool) (pre post : list A) (x : A) :
  existsb f (pre ++ post) = true -> existsb f (pre ++ x :: post) = true.
Proof.
  rewrite !existsb_app. simpl. intros [H|H]%orb_true_iff; apply orb_true_iff; [by left|].
  right. by rewrite H, orb_true_r.
Qed.

Lemma Forall_middle {A : Type} (P : A -> Prop) (l pre post : list A) (x : A) :
  Forall P l -> l = pre ++ x :: post -> P x /\ Forall P (pre ++ post).
Proof.
  intros HF ->. apply Forall_app in HF as [Hpre Hpost]. inversion Hpost; subst.
  split; [done|]. by apply Forall_app.
Qed.
