(* ===== verification/Argmax.v ===== *)
(** * [np.argmax] over one frame of the emission matrix

    [DetectorThread.run] classifies every frame by [np.argmax(probs[idx])]
    (main_window.py, lines 250 and 254).  The entries are soft-max
    probabilities (floating point numbers); the model is generic over the
    score type through the interface [ScoreOrder], a strict weak order
    with a boolean "greater than".  [Z] and [Q] are instances.  NaN, for
    which numpy's comparison is not a weak order, is not modelled.

    numpy scans the row once, keeps the first maximum and replaces it only
    on a strictly greater entry: ties go to the lowest index. *)

From S2P Require Import Prelude.
From Stdlib Require Import QArith.
Local Open Scope nat_scope.

(** ** The interface: what [np.argmax] needs of the scores *)

Class ScoreOrder (S : Type) := {
  score_gtb : S -> S -> bool;
  score_gtb_irrefl : forall x, score_gtb x x = false;
  score_gtb_trans : forall x y z,
    score_gtb x y = true -> score_gtb y z = true -> score_gtb x z = true;
  (** not-greater is transitive too: a weak order, no NaN *)
  score_ngtb_trans : forall x y z,
    score_gtb x y = false -> score_gtb y z = false -> score_gtb x z = false
}.

Section Argmax.
Context {Sc : Type} `{ScoreOrder Sc}.

(** The loop of numpy's [argmax]: [i] is the index of the head of [row],
    [best] the maximum so far and [bi] its index. *)
Fixpoint argmax_from (i : nat) (best : Sc) (bi : nat) (row : list Sc) : nat :=
  match row with
  | [] => bi
  | x :: row' =>
      if score_gtb x best then argmax_from (S i) x i row'
      else argmax_from (S i) best bi row'
  end.

(** [np.argmax(row)]: [ValueError] on an empty row. *)
Definition np_argmax (row : list Sc) : res nat :=
  match row with
  | [] => raise ValueError
  | x :: row' => inr (argmax_from 1 x 0 row')
  end.

(** The element that [argmax_from] keeps is a maximum of what it saw. *)
Lemma argmax_from_spec i best bi row :
  let k := argmax_from i best bi row in
  (k = bi /\ forall j x, row !! j = Some x -> score_gtb x best = false)
  \/ (exists m, i <= k /\ row !! (k - i) = Some m /\ score_gtb m best = true
      /\ (forall j x, row !! j = Some x -> score_gtb x m = false)
      /\ (forall j x, j < k - i -> row !! j = Some x -> score_gtb m x = true)).
Proof.
  revert i best bi; induction row as [|x row IH]; intros i best bi; simpl.
  { left. split; [done|]. intros j x Hj. by rewrite lookup_nil in Hj. }
  destruct (score_gtb x best) eqn:Hx.
  - right. destruct (IH (S i) x i) as [[-> Hall]|[m (Hle & Hm & Hgt & Hmax & Hfirst)]].
    + exists x. rewrite Nat.sub_diag. split_and!; [lia|done|done| |].
      * intros [|j] y Hy; simpl in Hy; [injection Hy as <-; apply score_gtb_irrefl|].
        by apply (Hall j).
      * intros j y Hj. lia.
    + exists m. replace (argmax_from (S i) x i row - i)
        with (S (argmax_from (S i) x i row - S i)) by lia.
      split_and!; [lia|done|by eapply score_gtb_trans| |].
      * intros [|j] y Hy; simpl in Hy; [|by apply (Hmax j)].
        injection Hy as <-. destruct (score_gtb x m) eqn:E; [|done].
        pose proof (score_gtb_trans _ _ _ E Hgt) as C.
        by rewrite score_gtb_irrefl in C.
      * intros [|j] y Hj Hy; simpl in Hy; [injection Hy as <-; done|].
        apply (Hfirst j); [lia|done].
  - destruct (IH (S i) best bi) as [[-> Hall]|[m (Hle & Hm & Hgt & Hmax & Hfirst)]].
    + left. split; [done|]. intros [|j] y Hy; simpl in Hy; [by injection Hy as <-|].
      by apply (Hall j).
    + right. exists m. replace (argmax_from (S i) best bi row - i)
        with (S (argmax_from (S i) best bi row - S i)) by lia.
      split_and!; [lia|done|done| |].
      * intros [|j] y Hy; simpl in Hy; [|by apply (Hmax j)].
        injection Hy as <-. destruct (score_gtb x m) eqn:E; [|done].
        pose proof (score_gtb_trans _ _ _ E Hgt) as C. by rewrite C in Hx.
      * intros [|j] y Hj Hy; simpl in Hy; [|apply (Hfirst j); [lia|done]].
        injection Hy as <-. destruct (score_gtb m x) eqn:E; [done|].
        pose proof (score_ngtb_trans _ _ _ E Hx) as C. by rewrite Hgt in C.
Qed.

End Argmax.

(** An order embedding: [f] preserves and reflects "greater than". *)
Definition order_embedding {Sc T : Type} `{ScoreOrder Sc} `{ScoreOrder T}
  (f : Sc -> T) : Prop :=
  forall x y, score_gtb (f x) (f y) = score_gtb x y.

Lemma argmax_from_map {Sc T : Type} `{ScoreOrder Sc} `{ScoreOrder T} (f : Sc -> T)
  i best bi (row : list Sc) :
  order_embedding f ->
  argmax_from i (f best) bi (map f row) = argmax_from i best bi row.
Proof.
  intros Hf. revert i best bi; induction row as [|x row IH]; intros i best bi;
    simpl; [done|]. rewrite Hf. by destruct (score_gtb x best).
Qed.

(** ** Instances: integer and rational scores *)

Lemma Z_gtb_irrefl (x : Z) : (x <? x)%Z = false.
Proof. apply Z.ltb_irrefl. Qed.
Lemma Z_gtb_trans (x y z : Z) : (y <? x)%Z = true -> (z <? y)%Z = true -> (z <? x)%Z = true.
Proof. rewrite !Z.ltb_lt. lia. Qed.
Lemma Z_ngtb_trans (x y z : Z) :
  (y <? x)%Z = false -> (z <? y)%Z = false -> (z <? x)%Z = false.
Proof. rewrite !Z.ltb_ge. lia. Qed.

#[export] Instance Z_score : ScoreOrder Z :=
  {| score_gtb x y := (y <? x)%Z; score_gtb_irrefl := Z_gtb_irrefl;
     score_gtb_trans := Z_gtb_trans; score_ngtb_trans := Z_ngtb_trans |}.

Lemma Q_gtb_irrefl (x : Q) : negb (Qle_bool x x) = false.
Proof. by rewrite (proj2 (Qle_bool_iff x x) (Qle_refl x)). Qed.
Lemma Q_gtb_trans (x y z : Q) :
  negb (Qle_bool x y) = true -> negb (Qle_bool y z) = true -> negb (Qle_bool x z) = true.
Proof.
  intros Hxy Hyz. apply negb_true_iff, not_true_iff_false in Hxy, Hyz.
  apply negb_true_iff, not_true_iff_false. rewrite Qle_bool_iff in Hxy, Hyz |- *.
  intros Hxz. apply Hxy. apply Qnot_le_lt in Hyz. apply Qlt_le_weak.
  eapply Qle_lt_trans; eassumption.
Qed.
Lemma Q_ngtb_trans (x y z : Q) :
  negb (Qle_bool x y) = false -> negb (Qle_bool y z) = false -> negb (Qle_bool x z) = false.
Proof.
  intros Hxy Hyz. apply negb_false_iff in Hxy, Hyz. apply negb_false_iff.
  rewrite Qle_bool_iff in Hxy, Hyz |- *. eapply Qle_trans; eassumption.
Qed.

#[export] Instance Q_score : ScoreOrder Q :=
  {| score_gtb x y := negb (Qle_bool x y); score_gtb_irrefl := Q_gtb_irrefl;
     score_gtb_trans := Q_gtb_trans; score_ngtb_trans := Q_ngtb_trans |}.

(** ** Properties of [np_argmax] *)

Lemma score_gtb_asym {Sc : Type} `{ScoreOrder Sc} (x y : Sc) :
  score_gtb x y = true -> score_gtb y x = false.
Proof.
  intros Hxy. destruct (score_gtb y x) eqn:Hyx; [|done].
  pose proof (score_gtb_trans _ _ _ Hxy Hyx) as C. by rewrite score_gtb_irrefl in C.
Qed.

(** C17: [np.argmax] returns the index of the first maximal entry of a
    non-empty row: no entry is greater, every earlier entry is smaller. *)
Theorem np_argmax_first_max {Sc : Type} `{ScoreOrder Sc} (row : list Sc) i :
  np_argmax row = inr i ->
  exists m, row !! i = Some m
    /\ (forall j x, row !! j = Some x -> score_gtb x m = false)
    /\ (forall j x, j < i -> row !! j = Some x -> score_gtb m x = true).
Proof.
  destruct row as [|x row]; simpl; [done|]. intros [= <-].
  destruct (argmax_from_spec 1 x 0 row) as [[-> Hall]|(m & Hle & Hm & Hgt & Hmax & Hfirst)].
  - exists x. split_and!; [done| |intros; lia].
    intros [|j] y Hy; simpl in Hy; [injection Hy as <-; apply score_gtb_irrefl|].
    by apply (Hall j).
  - exists m. destruct (argmax_from 1 x 0 row) as [|k] eqn:Ek; [lia|].
    rewrite Nat.sub_1_r in Hm, Hfirst. simpl in Hm, Hfirst |- *. split_and!; [done| |].
    + intros [|j] y Hy; simpl in Hy; [|by apply (Hmax j)].
      injection Hy as <-. by apply score_gtb_asym.
    + intros [|j] y Hj Hy; simpl in Hy; [by injection Hy as <-|].
      apply (Hfirst j); [lia|done].
Qed.

(** [np.argmax] fails exactly on an empty row. *)
Lemma np_argmax_error {Sc : Type} `{ScoreOrder Sc} (row : list Sc) e :
  np_argmax row = inl e <-> row = [] /\ e = ValueError.
Proof.
  destruct row; simpl; split; intros He;
    [by injection He as <-|by destruct He as [_ ->]|done|by destruct He].
Qed.

Example np_argmax_tie : np_argmax [1; 5; 3; 5]%Z = inr 1.
Proof. reflexivity. Qed.

Lemma np_argmax_first_max_witness :
  np_argmax [1; 5; 3; 5]%Z = inr 1
  /\ exists m, [1; 5; 3; 5]%Z !! 1 = Some m
    /\ (forall j x, [1; 5; 3; 5]%Z !! j = Some x -> score_gtb x m = false)
    /\ (forall j x, j < 1 -> [1; 5; 3; 5]%Z !! j = Some x -> score_gtb m x = true).
Proof. split; [reflexivity|]. by apply np_argmax_first_max. Defined.


