(* ===== verification/Segmenter.v ===== *)
(** * The segmenter: runs of space frames (main_window.py, lines 244-268)

    [DetectorThread.run] classifies each frame of the emission matrix by its
    arg-max symbol and runs a two-state machine over the frames:
    [state = "space"] while inside a run of space frames, [state = ""]
    otherwise.  Symbol 0 is the space, symbol 28 the CTC blank.  A run opens
    on a space frame, survives space and blank frames, and is closed by any
    other frame as the pair [[idx_state, idx - 1]]; a run still open after
    the last frame is closed at [len(probs) - 1].

    The model is [Module Segmenter]: the state is the record [seg_state]
    (the Python locals [state], [idx_state], [spaces]), [seg_step] is one
    iteration of the [for] loop, [seg_loop] the loop, [space_runs] the whole
    of lines 247-268 on the list of arg-max classes, and [get_spaces] adds
    the arg-max of every row.  The theorems show that the result is exactly
    the list of maximal space-initiated runs: every run starts on a space,
    contains no other symbol, is closed by a non-space non-blank frame or by
    the end; runs are sorted and separated; every space frame is in a run;
    and these properties determine the list. *)

From S2P Require Import Prelude Argmax.

Module Segmenter.

(** The vocabulary indices the code hard-wires (lines 250, 257, 258, 263). *)
Definition SPACE_IDX : nat := 0.
Definition BLANK_IDX : nat := 28.

(** The Python string [state]: ["space"] or [""]. *)
Inductive sstate : Type := SEmpty | SSpace.

#[export] Instance sstate_eq_dec : EqDecision sstate.
Proof. solve_decision. Defined.

(** The loop's locals: [state], [idx_state] and the list [spaces]. *)
Record seg_state : Type := mk_seg {
  state : sstate;
  idx_state : nat;
  spaces : list (nat * nat)
}.

(** Lines 247-251: the state after frame 0. *)
Definition seg_init (c0 : nat) : seg_state :=
  {| state := if c0 =? SPACE_IDX then SSpace else SEmpty;
     idx_state := 0; spaces := [] |}.

(** The test of lines 255-259: a frame that closes a run. *)
Definition is_break (c : nat) : bool :=
  negb (c =? SPACE_IDX) && negb (c =? BLANK_IDX).

(** Lines 254-265: one iteration, frame [idx] with arg-max [c].  The second
    [if] sees the state the first one may have just reset. *)
Definition seg_step (idx c : nat) (st : seg_state) : seg_state :=
  let st1 :=
    match state st with
    | SSpace =>
        if is_break c
        then mk_seg SEmpty (idx_state st) (spaces st ++ [(idx_state st, idx - 1)])
        else st
    | SEmpty => st
    end in
  match state st1 with
  | SEmpty => if c =? SPACE_IDX then mk_seg SSpace idx (spaces st1) else st1
  | SSpace => st1
  end.

(** Line 253: [for idx in range(1, probs.shape[0])], over the classes of
    frames [idx], [idx + 1], ... *)
Fixpoint seg_loop (idx : nat) (cs : list nat) (st : seg_state) : seg_state :=
  match cs with
  | [] => st
  | c :: cs' => seg_loop (S idx) cs' (seg_step idx c st)
  end.

(** Lines 267-268: close a run still open after the last frame. *)
Definition seg_finish (T : nat) (st : seg_state) : list (nat * nat) :=
  match state st with
  | SSpace => spaces st ++ [(idx_state st, T - 1)]
  | SEmpty => spaces st
  end.

(** Lines 247-268 on the arg-max classes [cs] of all frames.  [probs[0]]
    raises [IndexError] when there is no frame. *)
Definition space_runs (cs : list nat) : res (list (nat * nat)) :=
  match cs with
  | [] => raise IndexError
  | c0 :: cs' => inr (seg_finish (length cs) (seg_loop 1 cs' (seg_init c0)))
  end.

(** With the arg-max of every row (lines 250, 254). *)
Definition get_spaces {Sc : Type} `{ScoreOrder Sc} (probs : list (list Sc))
  : res (list (nat * nat)) :=
  cs <-? res_mapM np_argmax probs ;; space_runs cs.

Example space_runs_spec_scenario :
  space_runs [0; 0; 3; 3; 0] = inr [(0, 1); (4, 4)].
Proof. reflexivity. Qed.


(** ** Specification: maximal space-initiated runs

    Over the classes [cs] of the whole matrix: a frame is quiet when its
    class does not close a run; a run [(a, b)] is well formed when it
    starts on a space frame, is quiet from [a] to [b], and ends at the last
    frame or just before a breaking frame. *)

Section Spec.
Variable cs : list nat.

Definition quiet_on (a b : nat) : Prop :=
  forall k, a <= k <= b -> exists c, cs !! k = Some c /\ is_break c = false.

Definition breaks_at (k : nat) : Prop :=
  exists c, cs !! k = Some c /\ is_break c = true.

Definition run_ok (r : nat * nat) : Prop :=
  fst r <= snd r /\ cs !! fst r = Some SPACE_IDX /\ quiet_on (fst r) (snd r)
  /\ (S (snd r) = length cs \/ breaks_at (S (snd r))).

(** [r1] ends before [r2] starts. *)
Definition before (r1 r2 : nat * nat) : Prop := snd r1 < fst r2.

Definition covered (rs : list (nat * nat)) (k : nat) : Prop :=
  exists r, In r rs /\ fst r <= k <= snd r.

(** The specification of the list of runs. *)
Definition runs_spec (rs : list (nat * nat)) : Prop :=
  Forall run_ok rs /\ Sorted before rs
  /\ forall k, cs !! k = Some SPACE_IDX -> covered rs k.

(** The invariant of the loop after frames [0 .. i-1]. *)
Definition seg_inv (i : nat) (st : seg_state) : Prop :=
  Forall run_ok (spaces st) /\ Forall (fun r => S (snd r) < i) (spaces st)
  /\ Sorted before (spaces st)
  /\ match state st with
     | SSpace =>
         idx_state st < i /\ cs !! idx_state st = Some SPACE_IDX
         /\ quiet_on (idx_state st) (i - 1)
         /\ Forall (fun r => snd r < idx_state st) (spaces st)
         /\ forall k, k < idx_state st -> cs !! k = Some SPACE_IDX ->
                      covered (spaces st) k
     | SEmpty =>
         forall k, k < i -> cs !! k = Some SPACE_IDX -> covered (spaces st) k
     end.
End Spec.

Lemma is_break_space : is_break SPACE_IDX = false.
Proof. reflexivity. Qed.

Lemma is_break_true c : is_break c = true -> c <> SPACE_IDX.
Proof. unfold is_break. intros H ->. done. Qed.

Lemma covered_app_l rs rs' k : covered rs k -> covered (rs ++ rs') k.
Proof. intros (r & Hin & Hk). exists r. split; [apply in_or_app; by left|done]. Qed.

Lemma covered_snoc_new rs a b k : a <= k <= b -> covered (rs ++ [(a, b)]) k.
Proof. intros Hk. exists (a, b). split; [apply in_or_app; right; by left|done]. Qed.

Lemma quiet_on_extend cs a b c :
  quiet_on cs a b -> cs !! S b = Some c -> is_break c = false -> quiet_on cs a (S b).
Proof.
  intros Hq Hc Hb k Hk. destruct (decide (k = S b)) as [->|Hne]; [by exists c|].
  apply Hq. lia.
Qed.

#[export] Hint Resolve covered_app_l covered_snoc_new is_break_space : align.

Lemma Forall_lt_weaken (rs : list (nat * nat)) i :
  Forall (fun r => S (snd r) < i) rs -> Forall (fun r => S (snd r) < S i) rs.
Proof. intros H. eapply Forall_impl; [exact H|]. simpl; intros; lia. Qed.

Lemma Forall_lt_snd (rs : list (nat * nat)) i :
  Forall (fun r => S (snd r) < i) rs -> Forall (fun r => snd r < i) rs.
Proof. intros H. eapply Forall_impl; [exact H|]. simpl; intros; lia. Qed.

#[export] Hint Resolve Forall_lt_weaken Forall_lt_snd : align.

(** Opening a run at frame [i] (lines 262-265). *)
Lemma seg_inv_open cs i sp :
  seg_inv cs i (mk_seg SEmpty 0 sp) -> cs !! i = Some SPACE_IDX ->
  seg_inv cs (S i) (mk_seg SSpace i sp).
Proof.
  intros (Hok & Hlt & Hsort & Hcov) Hc. unfold seg_inv; cbn [state idx_state spaces] in *.
  split_and!; auto with align.
  intros k Hk. replace k with i by lia. by exists SPACE_IDX.
Qed.

(** Closing the open run at a breaking frame [i] (lines 255-261). *)
Lemma seg_inv_close cs i a sp c :
  seg_inv cs i (mk_seg SSpace a sp) -> cs !! i = Some c -> is_break c = true ->
  seg_inv cs (S i) (mk_seg SEmpty a (sp ++ [(a, i - 1)])).
Proof.
  intros (Hok & Hlt & Hsort & Hai & Ha & Hq & Hbef & Hcov) Hc Hb.
  unfold seg_inv; cbn [state idx_state spaces] in *.
  assert (Hi : S (i - 1) = i) by lia.
  split_and!.
  - apply Forall_app. split; [done|]. constructor; [|done].
    unfold run_ok; cbn [fst snd]. rewrite Hi. split_and!; [lia|done|done|].
    right. by exists c.
  - apply Forall_app. split; [auto with align|]. constructor; [simpl; lia|done].
  - apply Sorted_snoc; [done|]. intros y Hy. unfold before; simpl.
    exact (Forall_last (fun r => snd r < a) sp y Hbef Hy).
  - intros k Hk Hs. destruct (decide (k < a)); [auto with align|].
    destruct (decide (k = i)) as [->|]; [|apply covered_snoc_new; lia].
    rewrite Hc in Hs. injection Hs as ->. done.
Qed.

(** A quiet frame [i] keeps the open run open. *)
Lemma seg_inv_stay_space cs i a sp c :
  seg_inv cs i (mk_seg SSpace a sp) -> cs !! i = Some c -> is_break c = false ->
  seg_inv cs (S i) (mk_seg SSpace a sp).
Proof.
  intros (Hok & Hlt & Hsort & Hai & Ha & Hq & Hbef & Hcov) Hc Hb.
  unfold seg_inv; cbn [state idx_state spaces] in *.
  split_and!; auto with align.
  replace (S i - 1) with (S (i - 1)) by lia. apply (quiet_on_extend _ _ _ c); [done| |done].
  by replace (S (i - 1)) with i by lia.
Qed.

(** A non-space frame [i] outside a run changes nothing. *)
Lemma seg_inv_stay_empty cs i a sp c :
  seg_inv cs i (mk_seg SEmpty a sp) -> cs !! i = Some c -> c <> SPACE_IDX ->
  seg_inv cs (S i) (mk_seg SEmpty a sp).
Proof.
  intros (Hok & Hlt & Hsort & Hcov) Hc Hne.
  unfold seg_inv; cbn [state idx_state spaces] in *.
  split_and!; auto with align. intros k Hk Hs.
  destruct (decide (k = i)) as [->|]; [congruence|]. apply Hcov; [lia|done].
Qed.

(** One iteration of the loop preserves the invariant. *)
Lemma seg_step_inv cs i c st :
  1 <= i -> seg_inv cs i st -> cs !! i = Some c -> seg_inv cs (S i) (seg_step i c st).
Proof.
  intros Hi Hinv Hc. destruct st as [[|] a sp]; unfold seg_step; cbn [state].
  - destruct (c =? SPACE_IDX) eqn:E; nat_eqb_to_prop.
    + subst c. assert (Hinv0 : seg_inv cs i (mk_seg SEmpty 0 sp)) by exact Hinv.
      by apply seg_inv_open.
    + by eapply seg_inv_stay_empty.
  - destruct (is_break c) eqn:Eb; cbn [state].
    + rewrite (proj2 (Nat.eqb_neq c SPACE_IDX) (is_break_true c Eb)).
      by eapply seg_inv_close.
    + by eapply seg_inv_stay_space.
Qed.

(** Lines 247-251 establish the invariant for frame 0. *)
Lemma seg_init_inv cs c0 : cs !! 0 = Some c0 -> seg_inv cs 1 (seg_init c0).
Proof.
  intros Hc0. unfold seg_init, seg_inv.
  destruct (c0 =? SPACE_IDX) eqn:E; nat_eqb_to_prop; cbn [state idx_state spaces].
  - subst c0. split_and!; try constructor; try lia; [done|].
    intros k Hk. replace k with 0 by lia. by exists SPACE_IDX.
  - split_and!; try constructor. intros k Hk Hs.
    replace k with 0 in Hs by lia. congruence.
Qed.

(** The loop preserves the invariant over the remaining frames. *)
Lemma seg_loop_inv cs rest i st :
  1 <= i -> seg_inv cs i st -> drop i cs = rest ->
  seg_inv cs (i + length rest) (seg_loop i rest st).
Proof.
  revert i st; induction rest as [|c rest IH]; intros i st Hi Hinv Hdrop; simpl.
  - by rewrite Nat.add_0_r.
  - assert (Hc : cs !! i = Some c).
    { rewrite <- (Nat.add_0_r i), <- lookup_drop, Hdrop. done. }
    rewrite (drop_S _ _ _ Hc) in Hdrop. injection Hdrop as Hdrop.
    replace (i + S (length rest)) with (S i + length rest) by lia.
    apply IH; [lia| |done]. by apply seg_step_inv.
Qed.

(** Lines 267-268 turn the invariant at the last frame into the
    specification. *)
Lemma seg_finish_spec cs st :
  seg_inv cs (length cs) st -> runs_spec cs (seg_finish (length cs) st).
Proof.
  unfold seg_inv, seg_finish, runs_spec.
  destruct st as [[|] a sp]; cbn [state idx_state spaces].
  - intros (Hok & Hlt & Hsort & Hcov). split_and!; [done|done|].
    intros k Hs. apply Hcov; [by eapply lookup_lt_Some|done].
  - intros (Hok & Hlt & Hsort & Hai & Ha & Hq & Hbef & Hcov). split_and!.
    + apply Forall_app. split; [done|]. constructor; [|done].
      unfold run_ok; cbn [fst snd]. split_and!; [lia|done|done|]. left. lia.
    + apply Sorted_snoc; [done|]. intros y Hy. unfold before; simpl.
      exact (Forall_last (fun r => snd r < a) sp y Hbef Hy).
    + intros k Hs. pose proof (lookup_lt_Some _ _ _ Hs).
      destruct (decide (k < a)); [auto with align|]. apply covered_snoc_new. lia.
Qed.

(** ** The specification determines the runs *)

Definition run_wf (r : nat * nat) : Prop := fst r <= snd r.

Lemma run_ok_wf cs r : run_ok cs r -> run_wf r.
Proof. by intros [? _]. Qed.

Lemma runs_spec_wf cs rs : runs_spec cs rs -> Forall run_wf rs.
Proof.
  intros [Hok _]. eapply Forall_impl; [exact Hok|]. apply run_ok_wf.
Qed.

Lemma runs_spec_strongly_sorted cs rs : runs_spec cs rs -> StronglySorted before rs.
Proof.
  intros Hspec. apply (Sorted_StronglySorted_on _ run_wf); [| |apply Hspec].
  - unfold run_wf, before. intros; lia.
  - by eapply runs_spec_wf.
Qed.

(** Two well-formed runs that share a frame end at the same frame: the
    first breaking frame after it, or the end of the matrix. *)
Lemma run_ok_same_end cs r1 r2 k :
  run_ok cs r1 -> run_ok cs r2 -> fst r1 <= k <= snd r1 -> fst r2 <= k <= snd r2 ->
  snd r1 = snd r2.
Proof.
  assert (Hle : forall r1 r2, run_ok cs r1 -> run_ok cs r2 ->
            fst r1 <= k <= snd r1 -> fst r2 <= k <= snd r2 -> ~ snd r1 < snd r2).
  { intros [a1 b1] [a2 b2] (_ & _ & _ & Hend) (_ & _ & Hq2 & _) Hk1 Hk2 Hlt.
    simpl in *. destruct (Hq2 (S b1)) as (c & Hc & Hb); [lia|].
    destruct Hend as [Hend|(c' & Hc' & Hb')].
    - pose proof (lookup_lt_Some _ _ _ Hc). lia.
    - congruence. }
  intros H1 H2 Hk1 Hk2. pose proof (Hle r1 r2 H1 H2 Hk1 Hk2).
  pose proof (Hle r2 r1 H2 H1 Hk2 Hk1). lia.
Qed.

(** In a sorted list of well-formed runs the end frame identifies a run. *)
Lemma sorted_runs_same_end rs r1 r2 :
  StronglySorted before rs -> Forall run_wf rs -> In r1 rs -> In r2 rs ->
  snd r1 = snd r2 -> r1 = r2.
Proof.
  intros HS; induction HS as [|r rs HS IH Hhd]; intros Hwf Hin1 Hin2 Hend; [done|].
  inversion Hwf as [|? ? Hr Hwf']; subst. unfold run_wf in *.
  destruct Hin1 as [<-|Hin1], Hin2 as [<-|Hin2]; [done| | |by apply IH].
  - eapply Forall_forall in Hhd; [|apply list_elem_of_In, Hin2].
    eapply Forall_forall in Hwf'; [|apply list_elem_of_In, Hin2].
    unfold before, run_wf in *. lia.
  - eapply Forall_forall in Hhd; [|apply list_elem_of_In, Hin1].
    eapply Forall_forall in Hwf'; [|apply list_elem_of_In, Hin1].
    unfold before, run_wf in *. lia.
Qed.

Lemma runs_spec_ok cs rs r : runs_spec cs rs -> In r rs -> run_ok cs r.
Proof.
  intros [Hok _] Hin. by eapply Forall_forall in Hok; [|apply list_elem_of_In, Hin].
Qed.

(** A run of one list satisfying the specification is a run of any other. *)
Lemma runs_spec_In cs rs1 rs2 r :
  runs_spec cs rs1 -> runs_spec cs rs2 -> In r rs1 -> In r rs2.
Proof.
  intros S1 S2 Hin. pose proof (runs_spec_ok _ _ _ S1 Hin) as Hok.
  destruct (proj2 (proj2 S2) (fst r)) as (r' & Hin' & Hk'); [apply Hok|].
  pose proof (runs_spec_ok _ _ _ S2 Hin') as Hok'.
  assert (Hend : snd r' = snd r).
  { apply (run_ok_same_end cs r' r (fst r)); [done|done|done|]. pose proof (proj1 Hok). lia. }
  assert (Hstart : fst r' = fst r).
  { destruct (decide (fst r' < fst r)) as [Hlt|]; [exfalso|lia].
    destruct (proj2 (proj2 S1) (fst r')) as (r'' & Hin'' & Hk''); [apply Hok'|].
    pose proof (runs_spec_ok _ _ _ S1 Hin'') as Hok''.
    assert (snd r'' = snd r').
    { apply (run_ok_same_end cs r'' r' (fst r')); [done|done|done|].
      pose proof (proj1 Hok'). lia. }
    assert (r'' = r) as ->; [|lia].
    apply (sorted_runs_same_end rs1); [by eapply runs_spec_strongly_sorted
      |by eapply runs_spec_wf|done|done|congruence]. }
  destruct r, r'; simpl in *; by subst.
Qed.

(** The specification has at most one solution. *)
Lemma runs_spec_unique cs rs1 rs2 :
  runs_spec cs rs1 -> runs_spec cs rs2 -> rs1 = rs2.
Proof.
  intros S1 S2. apply (StronglySorted_ext before run_wf).
  - unfold before, run_wf. intros; lia.
  - unfold before, run_wf. intros; lia.
  - by eapply runs_spec_wf.
  - by eapply runs_spec_strongly_sorted.
  - by eapply runs_spec_strongly_sorted.
  - intros r; split; [by apply (runs_spec_In cs rs1 rs2)|by apply (runs_spec_In cs rs2 rs1)].
Qed.

Lemma space_runs_cons_spec c0 cs' :
  runs_spec (c0 :: cs') (seg_finish (length (c0 :: cs')) (seg_loop 1 cs' (seg_init c0))).
Proof.
  apply seg_finish_spec. change (length (c0 :: cs')) with (1 + length cs').
  apply seg_loop_inv; [lia|by apply seg_init_inv|done].
Qed.

(** The loop meets the specification, which determines its result. *)
Lemma space_runs_of_spec cs rs :
  cs <> [] -> runs_spec cs rs -> space_runs cs = inr rs.
Proof.
  intros Hne Hspec. destruct cs as [|c0 cs']; [done|]. simpl. f_equal.
  apply (runs_spec_unique (c0 :: cs')); [apply space_runs_cons_spec|done].
Qed.

(** ** Main theorems of the segmenter *)

(** C1: lines 247-268 compute exactly the maximal space-initiated runs:
    on a non-empty list of frame classes the result is the unique list of
    runs that start on a space frame, hold no frame other than space or
    blank, end at the last frame or just before a breaking frame, are
    sorted and separated, and cover every space frame; on no frame the code
    raises. *)
Theorem space_runs_characterization cs rs :
  space_runs cs = inr rs <-> cs <> [] /\ runs_spec cs rs.
Proof.
  split.
  - destruct cs as [|c0 cs']; [done|]. intros [= <-]. split; [done|].
    apply space_runs_cons_spec.
  - intros [Hne Hspec]. by apply space_runs_of_spec.
Qed.

Lemma space_runs_characterization_witness :
  space_runs [0; 28; 0; 5; 28; 0] = inr [(0, 2); (5, 5)]
  /\ runs_spec [0; 28; 0; 5; 28; 0] [(0, 2); (5, 5)].
Proof.
  split; [reflexivity|].
  exact (proj2 (proj1 (space_runs_characterization [0; 28; 0; 5; 28; 0] [(0, 2); (5, 5)])
    eq_refl)).
Defined.

Lemma space_runs_no_frame : space_runs [] = raise IndexError.
Proof. reflexivity. Qed.

(** C15: when every frame's arg-max is the space symbol, the result is the
    single run [[0, T-1]]. *)
Theorem space_runs_all_space cs :
  cs <> [] -> (forall k c, cs !! k = Some c -> c = SPACE_IDX) ->
  space_runs cs = inr [(0, length cs - 1)].
Proof.
  intros Hne Hall. apply space_runs_of_spec; [done|].
  destruct cs as [|c0 cs']; [done|].
  assert (Hc0 : (c0 :: cs') !! 0 = Some SPACE_IDX) by (rewrite <- (Hall 0 c0); done).
  split_and!.
  - constructor; [|done]. unfold run_ok; cbn [fst snd length].
    split_and!; [lia|done| |left; lia].
    intros k Hk. destruct ((c0 :: cs') !! k) as [c|] eqn:E.
    + exists c. split; [done|]. by rewrite (Hall k c E).
    + apply lookup_ge_None in E. simpl in *. lia.
  - by repeat constructor.
  - intros k Hk. exists (0, length (c0 :: cs') - 1). split; [by left|].
    pose proof (lookup_lt_Some _ _ _ Hk). simpl in *. lia.
Qed.

Lemma space_runs_all_space_witness :
  space_runs [0; 0; 0] = inr [(0, 2)].
Proof.
  apply (space_runs_all_space [0; 0; 0]); [done|].
  intros [|[|[|k]]] c Hc; simpl in Hc;
    [by injection Hc as <-..|by rewrite lookup_nil in Hc].
Defined.

(** C16: when no frame's arg-max is the space symbol, there is no run. *)
Theorem space_runs_no_space cs :
  cs <> [] -> (forall k, cs !! k <> Some SPACE_IDX) -> space_runs cs = inr [].
Proof.
  intros Hne Hnone. apply space_runs_of_spec; [done|].
  split_and!; [constructor|constructor|]. intros k Hk. by destruct (Hnone k).
Qed.

Lemma space_runs_no_space_witness :
  space_runs [3; 28; 28; 7] = inr [].
Proof.
  apply space_runs_no_space; [done|].
  intros [|[|[|[|k]]]]; simpl; done.
Defined.

(** Blank frames extend a run but never open one. *)
Example space_runs_blank_scenario :
  space_runs [5; 28; 0; 28; 28; 9; 28] = inr [(2, 4)].
Proof. reflexivity. Qed.

(** The arg-maxes of rows mapped by order embeddings are those of the
    rows: the soft-max does not change the classes. *)
Lemma argmax_rows_embedding {Sc T : Type} `{ScoreOrder Sc} `{ScoreOrder T}
    (probs : list (list Sc)) (probs' : list (list T)) :
  Forall2 (fun row row' => exists f, order_embedding f /\ row' = map f row) probs probs' ->
  res_mapM np_argmax probs' = res_mapM np_argmax probs.
Proof.
  induction 1 as [|row row' probs probs' (f & Hf & ->) _ IH]; [done|]. simpl.
  rewrite IH. destruct row as [|x row]; [done|]. simpl. by rewrite argmax_from_map.
Qed.

End Segmenter.
