(* ===== verification/PyStr.v ===== *)
(** * Python string operations used by the program

    The aligner tests [ele in words[j + 1]] (main_window.py, line 277):
    Python's substring containment.  [py_contains] scans the candidate
    start positions of [hay] and compares a prefix at each; it is shown
    equal to the declarative meaning "hay = pre + needle + post".
    Strings are [String.string], lists of 8-bit [ascii] characters. *)

From S2P Require Import Prelude.

Module PyStr.

Local Open Scope string_scope.

(** [hay.startswith(p)] *)
Fixpoint starts_with (p s : string) : bool :=
  match p, s with
  | EmptyString, _ => true
  | String c p', String d s' => Ascii.eqb c d && starts_with p' s'
  | String _ _, EmptyString => false
  end.

(** [needle in hay]: some position of [hay] starts with [needle]. *)
Fixpoint py_contains (needle hay : string) : bool :=
  starts_with needle hay ||
  match hay with
  | EmptyString => false
  | String _ hay' => py_contains needle hay'
  end.

(** stdpp makes [String.append] [simpl never]; these are its equations. *)
Lemma append_nil_l (s : string) : "" +:+ s = s.
Proof. reflexivity. Qed.

Lemma append_cons c (s1 s2 : string) : String c s1 +:+ s2 = String c (s1 +:+ s2).
Proof. reflexivity. Qed.

Lemma append_nil_r (s : string) : s +:+ "" = s.
Proof. induction s as [|c s IH]; [done|]. by rewrite append_cons, IH. Qed.

Lemma append_assoc (s1 s2 s3 : string) : s1 +:+ (s2 +:+ s3) = (s1 +:+ s2) +:+ s3.
Proof. induction s1 as [|c s1 IH]; [done|]. by rewrite !append_cons, IH. Qed.

#[export] Hint Rewrite append_nil_r append_assoc : align.

Lemma append_nonempty_r (s1 s2 : string) : s2 <> "" -> s1 +:+ s2 <> "".
Proof. intros H2. destruct s1; [done|]. rewrite append_cons. done. Qed.

Lemma starts_with_spec p s : starts_with p s = true <-> exists t, s = p +:+ t.
Proof.
  revert s; induction p as [|c p IH]; intros s; simpl.
  - split; [by exists s|done].
  - destruct s as [|d s]; split.
    + done.
    + by intros [t ?].
    + intros [Hcd Hp]%andb_true_iff. apply Ascii.eqb_eq in Hcd as ->.
      destruct (proj1 (IH s) Hp) as [t ->]. by exists t.
    + intros [t Ht]. rewrite append_cons in Ht. injection Ht as -> ->.
      rewrite Ascii.eqb_refl. simpl.
      apply IH. by exists t.
Qed.

Lemma py_contains_iff needle hay :
  py_contains needle hay = true <-> exists pre post, hay = pre +:+ needle +:+ post.
Proof.
  induction hay as [|c hay IH]; simpl; rewrite orb_true_iff, starts_with_spec.
  - split.
    + intros [[t Ht]|Hf]; [exists "", t; exact Ht|done].
    + intros (pre & post & H). left. destruct pre; [by exists post|done].
  - split.
    + intros [[t Ht]|Hin].
      * exists "", t. exact Ht.
      * destruct (proj1 IH Hin) as (pre & post & ->). by exists (String c pre), post.
    + intros ([|c' pre] & post & H).
      * left. by exists post.
      * rewrite append_cons in H. injection H as -> ->. right. apply IH. by exists pre, post.
Qed.

(** C19: [needle in hay] holds exactly when [hay] is [pre + needle + post]. *)
Theorem py_contains_spec needle hay :
  py_contains needle hay = true <-> exists pre post, hay = pre +:+ needle +:+ post.
Proof. apply py_contains_iff. Qed.

(** The empty string is in every string. *)
Lemma py_contains_empty hay : py_contains "" hay = true.
Proof. by destruct hay. Qed.

Lemma py_contains_spec_witness :
  py_contains "bad" "badly" = true /\ exists pre post, "badly" = pre +:+ "bad" +:+ post.
Proof. split; [reflexivity|]. by apply py_contains_spec. Defined.

(** ** White space, [str.split()] and [str.join]

    [str.isspace] on the code points below 256 (a [String.string] is read
    as Latin-1): tab to carriage return, the four separators 28-31, space,
    NEL (133) and no-break space (160). *)

Definition py_isspace (c : Ascii.ascii) : bool :=
  let n := Ascii.nat_of_ascii c in
  (((9 <=? n) && (n <=? 13)) || ((28 <=? n) && (n <=? 32)) || (n =? 133) || (n =? 160))%nat.

(** CPython's [split_whitespace]: the maximal runs of non-space characters.
    [cur] is the word read so far. *)
Fixpoint split_ws_go (s cur : string) : list string :=
  match s with
  | EmptyString => if String.eqb cur "" then [] else [cur]
  | String c s' =>
      if py_isspace c
      then (if String.eqb cur "" then [] else [cur]) ++ split_ws_go s' ""
      else split_ws_go s' (cur +:+ String c "")
  end.

(** [s.split()] *)
Definition py_split_ws (s : string) : list string := split_ws_go s "".

(** [sep.join(ws)] *)
Fixpoint py_join (sep : string) (ws : list string) : string :=
  match ws with
  | [] => ""
  | [w] => w
  | w :: ws' => w +:+ sep +:+ py_join sep ws'
  end.

(** A word as [split()] produces it: not empty, no white space. *)
Fixpoint no_space (s : string) : bool :=
  match s with
  | EmptyString => true
  | String c s' => negb (py_isspace c) && no_space s'
  end.

Definition is_word (w : string) : Prop := w <> "" /\ no_space w = true.

Lemma no_space_append s1 s2 : no_space (s1 +:+ s2) = no_space s1 && no_space s2.
Proof.
  induction s1 as [|c s1 IH]; [done|]. rewrite append_cons. simpl. rewrite IH.
  by rewrite andb_assoc.
Qed.

Lemma split_ws_go_word w s cur :
  no_space w = true -> split_ws_go (w +:+ s) cur = split_ws_go s (cur +:+ w).
Proof.
  revert cur; induction w as [|c w IH]; intros cur Hw.
  - by rewrite append_nil_r.
  - simpl in Hw. apply andb_true_iff in Hw as [Hc Hw]. apply negb_true_iff in Hc.
    rewrite append_cons. simpl. rewrite Hc, IH by done.
    by rewrite <- append_assoc.
Qed.

Lemma split_ws_go_space c s cur :
  py_isspace c = true ->
  split_ws_go (String c s) cur = ((if String.eqb cur "" then [] else [cur]) ++ split_ws_go s "")%list.
Proof. intros Hc. simpl. by rewrite Hc. Qed.

Definition space_char : Ascii.ascii := Ascii.ascii_of_nat 32.

Lemma space_isspace : py_isspace space_char = true.
Proof. reflexivity. Qed.

Lemma eqb_nonempty w : w <> "" -> String.eqb w "" = false.
Proof. intros Hw. by apply String.eqb_neq. Qed.

Lemma split_join_words ws :
  Forall is_word ws -> py_split_ws (py_join " " ws) = ws.
Proof.
  unfold py_split_ws. induction 1 as [|w ws [Hne Hw] Hws IH]; [done|].
  destruct ws as [|w' ws'].
  - simpl. rewrite <- (append_nil_r w) at 1. rewrite split_ws_go_word by done.
    simpl. by rewrite eqb_nonempty.
  - change (py_join " " (w :: w' :: ws'))
      with (w +:+ String space_char (py_join " " (w' :: ws'))).
    rewrite split_ws_go_word by done. rewrite append_nil_l.
    rewrite split_ws_go_space by apply space_isspace. rewrite eqb_nonempty by done.
    by rewrite IH.
Qed.

Lemma split_ws_go_words s cur :
  no_space cur = true -> Forall is_word (split_ws_go s cur).
Proof.
  revert cur; induction s as [|c s IH]; intros cur Hcur; simpl.
  - destruct (String.eqb_spec cur ""); repeat constructor; done.
  - destruct (py_isspace c) eqn:Hc.
    + apply Forall_app. split; [|by apply IH].
      destruct (String.eqb_spec cur ""); repeat constructor; done.
    + apply IH. rewrite no_space_append. simpl. by rewrite Hc, Hcur.
Qed.

(** Every piece of [s.split()] is a word. *)
Lemma split_ws_words s : Forall is_word (py_split_ws s).
Proof. by apply split_ws_go_words. Qed.

(** [" ".join(s.split())] is a normal form: splitting it again gives the
    same words. *)
Lemma split_join_split s :
  py_split_ws (py_join " " (py_split_ws s)) = py_split_ws s.
Proof. apply split_join_words, split_ws_words. Qed.

Lemma split_ws_nil_iff s : py_split_ws s = [] <-> py_join " " (py_split_ws s) = "".
Proof.
  split; [by intros ->|]. intros H. rewrite <- split_join_split, H. done.
Qed.

(** ** [str.lower()], [str.strip()] and [str.split(sep)] *)

(** [c.lower()] on the code points below 256: A-Z and the Latin-1 capitals
    (192-222 except the multiplication sign 215) move up by 32. *)
Definition lower_char (c : Ascii.ascii) : Ascii.ascii :=
  let n := Ascii.nat_of_ascii c in
  if (((65 <=? n) && (n <=? 90)) || ((192 <=? n) && (n <=? 222) && negb (n =? 215)))%nat
  then Ascii.ascii_of_nat (n + 32) else c.

Fixpoint py_lower (s : string) : string :=
  match s with
  | EmptyString => EmptyString
  | String c s' => String (lower_char c) (py_lower s')
  end.

Fixpoint lstrip (s : string) : string :=
  match s with
  | EmptyString => EmptyString
  | String c s' => if py_isspace c then lstrip s' else s
  end.

Fixpoint rev_str (s : string) : string :=
  match s with
  | EmptyString => EmptyString
  | String c s' => rev_str s' +:+ String c EmptyString
  end.

(** [s.strip()]: white space removed at both ends. *)
Definition py_strip (s : string) : string := rev_str (lstrip (rev_str (lstrip s))).

(** [s.split(sep)] for a one-character separator: the pieces between the
    separators, empty pieces included; [cur] is the piece read so far. *)
Fixpoint split_sep_go (sep : Ascii.ascii) (s cur : string) : list string :=
  match s with
  | EmptyString => [cur]
  | String c s' =>
      if Ascii.eqb c sep then cur :: split_sep_go sep s' ""
      else split_sep_go sep s' (cur +:+ String c "")
  end.

Definition py_split_sep (sep : Ascii.ascii) (s : string) : list string :=
  split_sep_go sep s "".

Example lower_example : py_lower "Bad WORD" = "bad word".
Proof. reflexivity. Qed.

Example strip_example : py_strip "  bad  word " = "bad  word".
Proof. reflexivity. Qed.

Example split_sep_example :
  py_split_sep (Ascii.ascii_of_nat 44) "bad, word,,x," = ["bad"; " word"; ""; "x"; ""].
Proof. reflexivity. Qed.

(** ** Character-wise properties and [strip] *)

(** Every character of [s] satisfies [p]. *)
Fixpoint all_chars (p : Ascii.ascii -> bool) (s : string) : bool :=
  match s with
  | EmptyString => true
  | String c s' => p c && all_chars p s'
  end.

(** [c] is its own lower case. *)
Definition is_lower_char (c : Ascii.ascii) : bool := Ascii.eqb (lower_char c) c.

(** The first character, if any, is not white space. *)
Definition starts_nonspace (s : string) : bool :=
  match s with EmptyString => true | String c _ => negb (py_isspace c) end.

Lemma all_chars_append p s1 s2 : all_chars p (s1 +:+ s2) = all_chars p s1 && all_chars p s2.
Proof.
  induction s1 as [|c s1 IH]; [done|]. rewrite append_cons. simpl. by rewrite IH, andb_assoc.
Qed.

Lemma all_chars_lstrip p s : all_chars p s = true -> all_chars p (lstrip s) = true.
Proof.
  induction s as [|c s IH]; [done|]. simpl. intros H. apply andb_prop in H as [Hc Hs].
  destruct (py_isspace c); [by apply IH|]. simpl. by rewrite Hc, Hs.
Qed.

Lemma all_chars_rev p s : all_chars p (rev_str s) = all_chars p s.
Proof.
  induction s as [|c s IH]; [done|]. simpl. rewrite all_chars_append, IH. simpl.
  by rewrite andb_true_r, andb_comm.
Qed.

Lemma all_chars_strip p s : all_chars p s = true -> all_chars p (py_strip s) = true.
Proof.
  intros H. unfold py_strip. rewrite all_chars_rev.
  apply all_chars_lstrip. rewrite all_chars_rev. by apply all_chars_lstrip.
Qed.

Lemma all_chars_split_sep p sep s cur :
  all_chars p s = true -> all_chars p cur = true -> Forall (fun t => all_chars p t = true) (split_sep_go sep s cur).
Proof.
  revert cur; induction s as [|c s IH]; intros cur Hs Hcur; simpl in *; [by constructor|].
  apply andb_prop in Hs as [Hc Hs]. destruct (Ascii.eqb c sep).
  - constructor; [done|]. by apply IH.
  - apply IH; [done|]. rewrite all_chars_append. simpl. by rewrite Hcur, Hc.
Qed.

Lemma all_chars_split_ws p s cur :
  all_chars p s = true -> all_chars p cur = true ->
  Forall (fun t => all_chars p t = true) (split_ws_go s cur).
Proof.
  revert cur; induction s as [|c s IH]; intros cur Hs Hcur; simpl in *.
  - destruct (String.eqb cur ""); by repeat constructor.
  - apply andb_prop in Hs as [Hc Hs]. destruct (py_isspace c).
    + apply Forall_app. split; [destruct (String.eqb cur ""); by repeat constructor|].
      by apply IH.
    + apply IH; [done|]. rewrite all_chars_append. simpl. by rewrite Hcur, Hc.
Qed.

Lemma all_chars_join p sep ws :
  all_chars p sep = true -> Forall (fun t => all_chars p t = true) ws ->
  all_chars p (py_join sep ws) = true.
Proof.
  intros Hsep Hws. induction Hws as [|w ws Hw Hws IH]; [done|]. simpl.
  destruct ws as [|w' ws']; [done|]. by rewrite !all_chars_append, Hw, Hsep, IH.
Qed.

Lemma lower_char_idem c : lower_char (lower_char c) = lower_char c.
Proof. destruct c as [[] [] [] [] [] [] [] []]; reflexivity. Qed.

Lemma all_lower_py_lower s : all_chars is_lower_char (py_lower s) = true.
Proof.
  induction s as [|c s IH]; [done|]. simpl. rewrite IH, andb_true_r.
  unfold is_lower_char. rewrite lower_char_idem. apply Ascii.eqb_refl.
Qed.

(** A string of lower-case characters is its own [lower()]. *)
Lemma py_lower_id s : all_chars is_lower_char s = true -> py_lower s = s.
Proof.
  induction s as [|c s IH]; [done|]. simpl. intros H. apply andb_prop in H as [Hc Hs].
  unfold is_lower_char in Hc. apply Ascii.eqb_eq in Hc. by rewrite Hc, IH.
Qed.

Lemma rev_str_append s1 s2 : rev_str (s1 +:+ s2) = rev_str s2 +:+ rev_str s1.
Proof.
  induction s1 as [|c s1 IH]; simpl.
  - by rewrite append_nil_r.
  - rewrite IH. by rewrite append_assoc.
Qed.

Lemma rev_str_involutive s : rev_str (rev_str s) = s.
Proof. induction s as [|c s IH]; [done|]. simpl. by rewrite rev_str_append, IH. Qed.

Lemma lstrip_starts s : starts_nonspace (lstrip s) = true.
Proof. induction s as [|c s IH]; [done|]. simpl. destruct (py_isspace c) eqn:E; [done|]. simpl. by rewrite E. Qed.

Lemma lstrip_id s : starts_nonspace s = true -> lstrip s = s.
Proof. destruct s as [|c s]; [done|]. simpl. by destruct (py_isspace c). Qed.

Lemma starts_nonspace_append s1 s2 : s1 <> "" -> starts_nonspace (s1 +:+ s2) = starts_nonspace s1.
Proof. by destruct s1. Qed.

Lemma rev_str_nil s : rev_str s = "" -> s = "".
Proof. destruct s as [|c s]; [done|]. simpl. intros H. by apply append_nonempty_r in H. Qed.

(** Stripping at the front keeps a non-space last character. *)
Lemma lstrip_keeps_end v :
  starts_nonspace (rev_str v) = true -> starts_nonspace (rev_str (lstrip v)) = true.
Proof.
  induction v as [|c v IH]; [done|]. simpl. destruct (py_isspace c); [|done].
  intros H. destruct (rev_str v) as [|d r] eqn:E.
  - by rewrite (rev_str_nil v E).
  - apply IH. by rewrite starts_nonspace_append in H.
Qed.

(** [s.strip().strip() = s.strip()]. *)
Lemma py_strip_idem s : py_strip (py_strip s) = py_strip s.
Proof.
  unfold py_strip at 2 3.
  set (u := lstrip (rev_str (lstrip s))).
  assert (Hu : starts_nonspace (rev_str u) = true).
  { apply lstrip_keeps_end. rewrite rev_str_involutive. apply lstrip_starts. }
  unfold py_strip. rewrite (lstrip_id _ Hu), rev_str_involutive.
  unfold u. by rewrite lstrip_id by apply lstrip_starts.
Qed.

End PyStr.
