(* ===== verification/Keywords.v ===== *)
(** * The keyword box: [MainWindow.get_bad_words] (main_window.py, 94-99)

    [text = " ".join(self.txtBadWords.toPlainText().lower().split())]
    normalises the box (lower case, runs of white space to one space), and
    [self.bad_words = [item.strip() for item in text.split(",")] if text
    else []] cuts it at the commas.  The string operations are those of
    [PyStr]; the [try]/[except] of the method never fires on a string.

    The theorems: the list is empty exactly when the box holds no word
    (the guard of [on_btnStart_clicked] rejects that case); every keyword
    is lower case and stripped; and a comma at the end of the box yields
    the empty keyword, which Python's [in] finds in every word, so that
    every tested word is reported ([Detector.trailing_comma_reports_all]). *)

From S2P Require Import Prelude PyStr.

Module Keywords.

Import PyStr.
Local Open Scope string_scope.
Local Open Scope list_scope.

Definition comma : Ascii.ascii := Ascii.ascii_of_nat 44.

(** Line 96. *)
Definition normalize (raw : string) : string := py_join " " (py_split_ws (py_lower raw)).

(** Lines 96-97: the value assigned to [self.bad_words]. *)
Definition get_bad_words (raw : string) : list string :=
  let text := normalize raw in
  if String.eqb text "" then [] else map py_strip (py_split_sep comma text).

Example get_bad_words_example :
  get_bad_words "  Bad,  WORSE word ,x" = ["bad"; "worse word"; "x"].
Proof. reflexivity. Qed.

(** ** Lower case and white space *)

Lemma lower_append s1 s2 : py_lower (s1 +:+ s2) = py_lower s1 +:+ py_lower s2.
Proof. induction s1 as [|c s1 IH]; [done|]. rewrite append_cons. simpl. by rewrite IH. Qed.

Lemma lower_char_isspace c : py_isspace (lower_char c) = py_isspace c.
Proof.
  unfold lower_char. destruct c as [[] [] [] [] [] [] [] []]; reflexivity.
Qed.

Lemma lower_empty s : String.eqb (py_lower s) "" = String.eqb s "".
Proof. by destruct s. Qed.

Lemma split_ws_go_lower s cur :
  split_ws_go (py_lower s) (py_lower cur) = map py_lower (split_ws_go s cur).
Proof.
  revert cur; induction s as [|c s IH]; intros cur; simpl.
  - rewrite lower_empty. by destruct (String.eqb cur "").
  - rewrite lower_char_isspace. destruct (py_isspace c).
    + rewrite lower_empty, map_app, <- IH. by destruct (String.eqb cur "").
    + rewrite <- IH, lower_append. done.
Qed.

(** [s.lower().split()] is [s.split()] lowered word by word. *)
Lemma split_ws_lower s : py_split_ws (py_lower s) = map py_lower (py_split_ws s).
Proof. apply (split_ws_go_lower s ""). Qed.

Lemma split_sep_go_nonempty sep s cur : split_sep_go sep s cur <> [].
Proof.
  revert cur; induction s as [|c s IH]; intros cur; simpl; [done|].
  destruct (Ascii.eqb c sep); [done|apply IH].
Qed.

Lemma bad_words_empty_iff raw : get_bad_words raw = [] <-> py_split_ws raw = [].
Proof.
  unfold get_bad_words, normalize. rewrite split_ws_lower.
  destruct (String.eqb_spec (py_join " " (map py_lower (py_split_ws raw))) "") as [He|Hne].
  - split; [intros _|done]. rewrite <- split_ws_lower in He.
    apply split_ws_nil_iff in He. rewrite split_ws_lower in He.
    by apply map_eq_nil in He.
  - split.
    + intros Hm. apply map_eq_nil in Hm. by apply split_sep_go_nonempty in Hm.
    + intros Hn. by rewrite Hn in Hne.
Qed.

(** C18: the keyword list is empty exactly when the box holds no word:
    white space only, or nothing. *)
Theorem get_bad_words_nil raw : get_bad_words raw = [] <-> py_split_ws raw = [].
Proof. apply bad_words_empty_iff. Qed.

Lemma get_bad_words_nil_witness : get_bad_words "  	 " = [] /\ py_split_ws "  	 " = [].
Proof. split; [apply get_bad_words_nil|]; reflexivity. Defined.

(** ** The trailing comma *)

Lemma split_ws_go_snoc_word s cur c :
  py_isspace c = false ->
  exists ws w, split_ws_go (s +:+ String c "") cur = ws ++ [w +:+ String c ""].
Proof.
  intros Hc. revert cur; induction s as [|d s IH]; intros cur.
  - exists [], cur. simpl. rewrite Hc. simpl.
    destruct cur; reflexivity.
  - rewrite append_cons. simpl. destruct (py_isspace d).
    + destruct (IH "") as (ws & w & ->).
      exists ((if String.eqb cur "" then [] else [cur]) ++ ws), w.
      by rewrite app_assoc.
    + apply IH.
Qed.

Lemma join_snoc_end sep ws w c :
  exists t, py_join sep (ws ++ [w +:+ String c ""]) = t +:+ String c "".
Proof.
  induction ws as [|v ws IH].
  - by exists w.
  - destruct IH as [t Ht]. simpl. destruct (ws ++ [w +:+ String c ""]) as [|u us] eqn:E.
    + by destruct ws.
    + exists (v +:+ sep +:+ t). rewrite Ht. by rewrite !append_assoc.
Qed.

Lemma split_sep_go_snoc_sep sep t cur :
  exists ps, split_sep_go sep (t +:+ String sep "") cur = ps ++ [""].
Proof.
  revert cur; induction t as [|c t IH]; intros cur.
  - exists [cur]. simpl. by rewrite Ascii.eqb_refl.
  - rewrite append_cons. simpl. destruct (Ascii.eqb c sep).
    + destruct (IH "") as [ps ->]. by exists (cur :: ps).
    + apply IH.
Qed.

Lemma normalize_snoc_comma raw : exists t, normalize (raw +:+ String comma "") = t +:+ String comma "".
Proof.
  unfold normalize, py_split_ws. rewrite lower_append.
  destruct (split_ws_go_snoc_word (py_lower raw) "" comma) as (ws & w & Hws); [done|].
  change (py_lower (String comma "")) with (String comma ""). rewrite Hws.
  apply join_snoc_end.
Qed.

(** A comma at the end of the box yields the empty keyword. *)
Theorem get_bad_words_trailing_comma raw : In "" (get_bad_words (raw +:+ ",")).
Proof.
  unfold get_bad_words. destruct (normalize_snoc_comma raw) as [t Ht].
  change "," with (String comma ""). rewrite Ht.
  destruct (String.eqb_spec (t +:+ String comma "") "") as [E|_].
  { by destruct t. }
  destruct (split_sep_go_snoc_sep comma t "") as [ps Hps].
  unfold py_split_sep. rewrite Hps, map_app. apply in_or_app. right. by left.
Qed.

(** With the empty keyword in the list, [ele in word] holds for every
    word: the detector reports every word it tests. *)
Theorem empty_keyword_hits_all bad_words w :
  In "" bad_words -> existsb (fun ele => py_contains ele w) bad_words = true.
Proof.
  intros Hin. apply existsb_exists. exists "". split; [done|]. apply py_contains_empty.
Qed.

Lemma empty_keyword_hits_all_witness :
  get_bad_words "bad," = ["bad"; ""]
  /\ existsb (fun ele => py_contains ele "hello") (get_bad_words "bad,") = true.
Proof.
  split; [reflexivity|]. apply empty_keyword_hits_all. by right; left.
Defined.

(** ** The keywords are in the normal form the spec's [KeywordSet] has *)

Lemma normalize_lower raw : all_chars is_lower_char (normalize raw) = true.
Proof.
  unfold normalize. apply all_chars_join; [done|].
  apply all_chars_split_ws; [apply all_lower_py_lower|done].
Qed.

Lemma bad_words_normal_form raw :
  Forall (fun k => py_lower k = k /\ py_strip k = k) (get_bad_words raw).
Proof.
  unfold get_bad_words. destruct (String.eqb _ _); [constructor|].
  apply Forall_map. eapply Forall_impl.
  - apply (all_chars_split_sep is_lower_char comma (normalize raw) ""); [apply normalize_lower|done].
  - intros k Hk. split; [|apply py_strip_idem].
    apply py_lower_id, all_chars_strip, Hk.
Qed.

(** C23: every keyword of the list is in lower case and stripped: it is
    its own [lower()] and its own [strip()]. *)
Theorem get_bad_words_normal raw :
  Forall (fun k => py_lower k = k /\ py_strip k = k) (get_bad_words raw).
Proof. apply bad_words_normal_form. Qed.

End Keywords.
