(* ===== verification/TimeFmt.v ===== *)
(** * Displayed timestamps: [time.strftime("%H:%M:%S", time.gmtime(t))]

    Lines 280-281 of main_window.py format the start and end of a match.
    The times are kept in integer milliseconds (see [Aligner]);
    [time.gmtime] floors its argument to whole seconds (CPython rounds
    towards minus infinity) and breaks the UTC time of day into hours,
    minutes and seconds; [%H:%M:%S] prints each as two decimal digits.
    Only the three fields the format uses are modelled.

    The theorems: the fields are in range, they recombine into the second
    of the day, the printed string parses back to it, and a negative time
    prints as the end of the previous day. *)

From S2P Require Import Prelude PyStr.

Module TimeFmt.

Local Open Scope Z_scope.
Local Open Scope string_scope.

Definition SECS_PER_DAY : Z := 86400.

(** The fields of [struct_time] that [%H:%M:%S] reads. *)
Record tm : Type := mk_tm { tm_hour : Z; tm_min : Z; tm_sec : Z }.

(** [time.gmtime(t)] for [t] given in milliseconds. *)
Definition gmtime (t_ms : Z) : tm :=
  let secs := t_ms / 1000 in
  let day := secs mod SECS_PER_DAY in
  {| tm_hour := day / 3600; tm_min := (day mod 3600) / 60; tm_sec := day mod 60 |}.

(** One decimal digit, and a field printed as [%02d]. *)
Definition digit (n : Z) : Ascii.ascii := Ascii.ascii_of_nat (48 + Z.to_nat n).

Definition two_digits (n : Z) : string :=
  String (digit (n / 10)) (String (digit (n mod 10)) "").

(** [time.strftime("%H:%M:%S", t)] *)
Definition strftime_HMS (t : tm) : string :=
  two_digits (tm_hour t) +:+ ":" +:+ two_digits (tm_min t) +:+ ":" +:+ two_digits (tm_sec t).

(** Lines 280 and 281. *)
Definition fmt_time (t_ms : Z) : string := strftime_HMS (gmtime t_ms).

(** ** A reader for the printed form, to state the round trip *)

Definition digit_val (c : Ascii.ascii) : option Z :=
  let n := Ascii.nat_of_ascii c in
  if (48 <=? n)%nat && (n <? 58)%nat then Some (Z.of_nat n - 48) else None.

Definition parse_2 (c1 c2 : Ascii.ascii) : option Z :=
  match digit_val c1, digit_val c2 with
  | Some d1, Some d2 => Some (10 * d1 + d2)
  | _, _ => None
  end.

Definition colon : Ascii.ascii := Ascii.ascii_of_nat 58.

(** Parses ["HH:MM:SS"] to the second of the day it names. *)
Definition parse_HMS (s : string) : option Z :=
  match s with
  | String h1 (String h2 (String c1 (String m1 (String m2 (String c2
      (String q1 (String q2 EmptyString))))))) =>
      if Ascii.eqb c1 colon && Ascii.eqb c2 colon then
        match parse_2 h1 h2, parse_2 m1 m2, parse_2 q1 q2 with
        | Some h, Some m, Some sec => Some (3600 * h + 60 * m + sec)
        | _, _, _ => None
        end
      else None
  | _ => None
  end.

(** ** Theorems *)

Lemma day_bounds t_ms : 0 <= (t_ms / 1000) mod SECS_PER_DAY < SECS_PER_DAY.
Proof. apply Z.mod_pos_bound. done. Qed.

Lemma gmtime_bounds t_ms :
  let t := gmtime t_ms in 0 <= tm_hour t < 24 /\ 0 <= tm_min t < 60 /\ 0 <= tm_sec t < 60.
Proof. simpl. pose proof (day_bounds t_ms). unfold SECS_PER_DAY in *. split_and!; zdiv_lia. Qed.

Lemma gmtime_recombine t_ms :
  let t := gmtime t_ms in
  3600 * tm_hour t + 60 * tm_min t + tm_sec t = (t_ms / 1000) mod SECS_PER_DAY.
Proof. simpl. pose proof (day_bounds t_ms). unfold SECS_PER_DAY in *. zdiv_lia. Qed.

(** C21: the fields of [gmtime] are in range and recombine into the second
    of the day of the floored time. *)
Theorem gmtime_fields t_ms :
  let t := gmtime t_ms in
  0 <= tm_hour t < 24 /\ 0 <= tm_min t < 60 /\ 0 <= tm_sec t < 60
  /\ 3600 * tm_hour t + 60 * tm_min t + tm_sec t = (t_ms / 1000) mod SECS_PER_DAY.
Proof.
  pose proof (gmtime_bounds t_ms) as Hb. pose proof (gmtime_recombine t_ms) as Hr.
  cbv zeta in *. tauto.
Qed.

Lemma digit_val_digit n : 0 <= n < 10 -> digit_val (digit n) = Some n.
Proof.
  intros Hn. unfold digit_val, digit.
  rewrite Ascii.nat_ascii_embedding by lia.
  replace ((48 <=? 48 + Z.to_nat n)%nat && (48 + Z.to_nat n <? 58)%nat) with true.
  - f_equal. lia.
  - symmetry. apply andb_true_iff. rewrite Nat.leb_le, Nat.ltb_lt. lia.
Qed.

Lemma parse_2_two_digits n :
  0 <= n < 100 ->
  match two_digits n with
  | String c1 (String c2 EmptyString) => parse_2 c1 c2 = Some n
  | _ => False
  end.
Proof.
  intros Hn. unfold two_digits, parse_2.
  rewrite !digit_val_digit; [|pose proof (Z.mod_pos_bound n 10); lia|].
  - f_equal. pose proof (Z.div_mod n 10). lia.
  - split; [apply Z.div_pos; lia|apply Z.div_lt_upper_bound; lia].
Qed.

(** C20: the printed time reads back as the second of the day of the
    floored time: [%H:%M:%S] loses only whole days and the fraction. *)
Theorem fmt_time_roundtrip t_ms :
  parse_HMS (fmt_time t_ms) = Some ((t_ms / 1000) mod SECS_PER_DAY).
Proof.
  destruct (gmtime_bounds t_ms) as (Hh & Hm & Hs).
  pose proof (gmtime_recombine t_ms) as Heq.
  unfold fmt_time, strftime_HMS.
  pose proof (parse_2_two_digits (tm_hour (gmtime t_ms)) ltac:(lia)) as Ph.
  pose proof (parse_2_two_digits (tm_min (gmtime t_ms)) ltac:(lia)) as Pm.
  pose proof (parse_2_two_digits (tm_sec (gmtime t_ms)) ltac:(lia)) as Ps.
  destruct (two_digits (tm_hour _)) as [|h1 [|h2 []]]; try done.
  destruct (two_digits (tm_min _)) as [|m1 [|m2 []]]; try done.
  destruct (two_digits (tm_sec _)) as [|s1 [|s2 []]]; try done.
  simpl. rewrite Ph, Pm, Ps. by rewrite Heq.
Qed.

(** C22: a negative time, which the calibration offset produces for a
    boundary in the first 180 ms, floors to the last second of the
    previous day: it prints as [23:59:59], not as a clamped [00:00:00]. *)
Theorem fmt_time_negative t_ms :
  -1000 <= t_ms < 0 -> fmt_time t_ms = "23:59:59".
Proof.
  intros Ht. assert (Hs : t_ms / 1000 = -1) by zdiv_lia.
  unfold fmt_time, gmtime. rewrite Hs. reflexivity.
Qed.

Lemma fmt_time_negative_witness : fmt_time (-180) = "23:59:59".
Proof. apply fmt_time_negative. lia. Defined.

Example fmt_time_example : fmt_time 3725040 = "01:02:05".
Proof. reflexivity. Qed.

(** Durations of a day or more wrap around: 24 h 5 s prints as 00:00:05. *)
Example fmt_time_wraps : fmt_time 86405000 = "00:00:05".
Proof. reflexivity. Qed.

End TimeFmt.
