(* ===== verification/Aligner.v ===== *)
(** * The aligner: words, boundaries and matches (main_window.py, 269-284)

    After the segmenter, [DetectorThread.run] walks the list [spaces] of
    runs with [enumerate]: run [j] gives the end time
    [pos_end = offset + (spot[0] + spot[1]) / 2 * time_stride] of the word
    [words[j + 1]], whose start is the previous end [pos_prev] (0 at
    first).  When a keyword is a substring of that word, one line
    ["<word> Start: HH:MM:SS End: HH:MM:SS"] is emitted on the [progress]
    signal.  Word 0 is never tested.

    Times are integers of milliseconds: with [time_stride = 0.02] and
    [offset = -0.18] the exact value of [pos_end] is
    [-180 + 10 * (spot[0] + spot[1])] ms.  The model computes it exactly;
    the Python float may differ from it by rounding, which can change the
    displayed second only when the exact value is a whole second.

    The model is [Module Aligner]: [hits_of] is the list comprehension of
    line 277 (which reads [words[j + 1]] once per keyword, so it raises
    [IndexError] only when there is a keyword), [cut_loop] the [for] loop,
    returning the emitted lines together with the outcome (normal end or
    the exception that stopped the loop after the lines before it were
    emitted).  The abstract specification [matches] lists the tested words
    with their start and end; the refinement theorems say what [cut_loop]
    emits and when it raises. *)

From S2P Require Import Prelude PyStr TimeFmt Segmenter.

Module Aligner.

Import PyStr TimeFmt Segmenter.
Local Open Scope Z_scope.

(** [time_stride = 0.02] (line 242) and [offset = -0.18] (line 270), in ms. *)
Definition TIME_STRIDE_MS : Z := 20.
Definition OFFSET_MS : Z := -180.

(** Line 276: [offset + (spot[0] + spot[1]) / 2 * time_stride]. *)
Definition pos_end_of (spot : nat * nat) : Z :=
  OFFSET_MS + (Z.of_nat (fst spot) + Z.of_nat (snd spot)) * TIME_STRIDE_MS / 2.

(** Line 277: [[ele for ele in self.bad_words if (ele in words[j + 1])]]. *)
Fixpoint hits_of (bad_words words : list string) (i : nat) : res (list string) :=
  match bad_words with
  | [] => inr []
  | ele :: rest =>
      w <-? py_index words i ;;
      hs <-? hits_of rest words i ;;
      inr (if py_contains ele w then ele :: hs else hs)
  end.

(** Lines 278-282: the emitted line. *)
Definition result_line (w : string) (pos_prev pos_end : Z) : string :=
  (w +:+ " Start: " +:+ fmt_time pos_prev +:+ " End: " +:+ fmt_time pos_end)%string.

(** Lines 274-284, from index [j] on with [pos_prev] the previous end.
    The result is the list of emitted lines and how the loop ended. *)
Fixpoint cut_loop (bad_words words : list string) (j : nat) (spots : list (nat * nat))
    (pos_prev : Z) : list string * res unit :=
  match spots with
  | [] => ([], inr tt)
  | spot :: spots' =>
      let pos_end := pos_end_of spot in
      match hits_of bad_words words (S j) with
      | inl e => ([], inl e)
      | inr [] => cut_loop bad_words words (S j) spots' pos_end
      | inr (_ :: _) =>
          match py_index words (S j) with
          | inl e => ([], inl e)
          | inr w =>
              let '(out, r) := cut_loop bad_words words (S j) spots' pos_end in
              (result_line w pos_prev pos_end :: out, r)
          end
      end
  end.

(** Lines 273-284. *)
Definition cut (bad_words words : list string) (spaces : list (nat * nat))
  : list string * res unit :=
  cut_loop bad_words words 0 spaces 0.

Example cut_spec_scenario :
  cut ["bad"] ["the"; "quick"; "bad"; "fox"] [(10, 12)%nat] = ([], inr tt).
Proof. reflexivity. Qed.

Lemma result_line_nonempty w a b : result_line w a b <> "".
Proof. unfold result_line. apply append_nonempty_r. done. Qed.

(** Every line the loop emits is a [result_line], hence not empty. *)
Lemma cut_loop_nonempty bad_words words j spots pos_prev :
  Forall (fun l => l <> "") (fst (cut_loop bad_words words j spots pos_prev)).
Proof.
  revert j pos_prev; induction spots as [|spot spots IH]; intros j pos_prev; simpl; [done|].
  destruct (hits_of bad_words words (S j)) as [e|[|h hs]]; [done|apply IH|].
  destruct (py_index words (S j)) as [e|w]; [done|].
  specialize (IH (S j) (pos_end_of spot)).
  destruct (cut_loop bad_words words (S j) spots (pos_end_of spot)) as [out r].
  simpl in *. constructor; [apply result_line_nonempty|done].
Qed.

(** ** Abstract specification: the tested words and their time intervals

    Word [j + 1] is tested with the interval from the end of boundary
    [j - 1] (0 for [j = 0]) to the end of boundary [j]; a match is a tested
    word that contains a keyword. *)

Record Match : Type := mk_match { m_word : string; m_start : Z; m_end : Z }.

Definition keyword_hit (bad_words : list string) (w : string) : bool :=
  existsb (fun ele => py_contains ele w) bad_words.

(** The (start, end) of each boundary, the first starting at [pos_prev]. *)
Definition boundaries (pos_prev : Z) (spots : list (nat * nat)) : list (Z * Z) :=
  zip (pos_prev :: map pos_end_of spots) (map pos_end_of spots).

Definition matches_at (bad_words words : list string) (j : nat)
    (spots : list (nat * nat)) (pos_prev : Z) : list Match :=
  List.filter (fun m => keyword_hit bad_words (m_word m))
    (zip_with (fun w b => mk_match w (fst b) (snd b)) (drop (S j) words)
       (boundaries pos_prev spots)).

Definition matches (bad_words words : list string) (spaces : list (nat * nat)) : list Match :=
  matches_at bad_words words 0 spaces 0.

Definition render (m : Match) : string := result_line (m_word m) (m_start m) (m_end m).

(** ** The comprehension of line 277 *)

Lemma hits_of_Some bad_words words i w :
  words !! i = Some w ->
  hits_of bad_words words i = inr (List.filter (fun ele => py_contains ele w) bad_words).
Proof.
  intros Hw. induction bad_words as [|ele rest IH]; [done|]. simpl.
  rewrite (py_index_Some _ _ _ Hw). simpl. rewrite IH. simpl. done.
Qed.

Lemma hits_of_None bad_words words i :
  bad_words <> [] -> words !! i = None -> hits_of bad_words words i = raise IndexError.
Proof.
  intros Hne Hw. destruct bad_words as [|ele rest]; [done|]. simpl.
  unfold py_index. by rewrite Hw.
Qed.

Lemma filter_nil_existsb {A : Type} (f : A -> bool) (l : list A) :
  List.filter f l = [] <-> existsb f l = false.
Proof.
  induction l as [|x l IH]; simpl; [done|]. destruct (f x); simpl; [done|exact IH].
Qed.

Lemma boundaries_cons pos_prev spot spots :
  boundaries pos_prev (spot :: spots)
  = (pos_prev, pos_end_of spot) :: boundaries (pos_end_of spot) spots.
Proof. reflexivity. Qed.

(** The outcome of the loop from index [j]: it raises exactly when it
    reaches a run [j'] whose word [words[j' + 1]] does not exist. *)
Definition loop_outcome (words : list string) (j : nat) (spots : list (nat * nat)) : res unit :=
  if (length spots =? 0)%nat || (j + length spots <? length words)%nat
  then inr tt else raise IndexError.

Lemma cut_loop_spec bad_words words j spots pos_prev :
  bad_words <> [] ->
  cut_loop bad_words words j spots pos_prev
  = (map render (matches_at bad_words words j spots pos_prev), loop_outcome words j spots).
Proof.
  intros Hne. revert j pos_prev; induction spots as [|spot spots IH]; intros j pos_prev.
  { unfold matches_at, boundaries. simpl. by rewrite zip_with_nil_r. }
  simpl. destruct (words !! S j) as [w|] eqn:Hw.
  - rewrite (hits_of_Some _ _ _ _ Hw). unfold matches_at.
    rewrite (drop_S _ _ _ Hw), boundaries_cons. simpl.
    assert (Hout : loop_outcome words j (spot :: spots) = loop_outcome words (S j) spots).
    { unfold loop_outcome. pose proof (lookup_lt_Some _ _ _ Hw). simpl.
      destruct spots; simpl; [|by rewrite Nat.add_succ_r].
      rewrite Nat.add_1_r. by rewrite (proj2 (Nat.ltb_lt _ _)). }
    rewrite Hout. unfold keyword_hit at 1.
    destruct (List.filter (fun ele => py_contains ele w) bad_words) eqn:Hf.
    + rewrite (proj1 (filter_nil_existsb _ _) Hf). apply IH.
    + replace (existsb (fun ele => py_contains ele w) bad_words) with true.
      * rewrite (py_index_Some _ _ _ Hw), IH. done.
      * symmetry. apply not_false_iff_true. intros Hx.
        apply filter_nil_existsb in Hx. congruence.
  - rewrite (hits_of_None _ _ _ Hne Hw). apply lookup_ge_None in Hw.
    unfold matches_at, loop_outcome. rewrite drop_ge by done. simpl.
    rewrite (proj2 (Nat.ltb_ge _ _)) by lia. done.
Qed.

Lemma matches_at_cons bad_words words j spot spots pos_prev :
  matches_at bad_words words j (spot :: spots) pos_prev
  = match words !! S j with
    | Some w =>
        (if keyword_hit bad_words w then [mk_match w pos_prev (pos_end_of spot)] else [])
        ++ matches_at bad_words words (S j) spots (pos_end_of spot)
    | None => []
    end.
Proof.
  unfold matches_at at 1. destruct (words !! S j) as [w|] eqn:Hw.
  - rewrite (drop_S _ _ _ Hw), boundaries_cons. simpl.
    by destruct (keyword_hit bad_words w).
  - apply lookup_ge_None in Hw. by rewrite drop_ge.
Qed.

(** Only the runs that have a word are tested. *)
Lemma matches_at_take bad_words words j spots pos_prev :
  matches_at bad_words words j spots pos_prev
  = matches_at bad_words words j (take (length words - S j) spots) pos_prev.
Proof.
  revert j pos_prev; induction spots as [|spot spots IH]; intros j pos_prev.
  { by rewrite take_nil. }
  rewrite matches_at_cons. destruct (words !! S j) as [w|] eqn:Hw.
  - pose proof (lookup_lt_Some _ _ _ Hw).
    replace (length words - S j)%nat with (S (length words - S (S j))) by lia.
    rewrite firstn_cons, matches_at_cons, Hw, IH. done.
  - apply lookup_ge_None in Hw. replace (length words - S j)%nat with 0%nat by lia.
    unfold matches_at, boundaries. simpl. by rewrite zip_with_nil_r.
Qed.

Lemma loop_outcome_ok words spaces :
  (length spaces < length words)%nat -> loop_outcome words 0 spaces = inr tt.
Proof.
  intros Hlen. unfold loop_outcome. rewrite (proj2 (Nat.ltb_lt _ _)) by lia.
  by rewrite orb_true_r.
Qed.

Lemma cut_loop_no_keywords words j spots pos_prev :
  cut_loop [] words j spots pos_prev = ([], inr tt).
Proof.
  revert j pos_prev. induction spots as [|spot spots IH]; intros j p; [done|]. apply IH.
Qed.

(** ** Main theorems of the aligner *)

(** C2: with at least one keyword and a transcript longer than the list
    of runs, the loop ends normally after emitting, in order, one line per
    tested word [words[j + 1]] that contains a keyword, with the interval
    from the previous boundary to boundary [j]. *)
Theorem cut_correct bad_words words spaces :
  bad_words <> [] -> (length spaces < length words)%nat ->
  cut bad_words words spaces = (map render (matches bad_words words spaces), inr tt).
Proof.
  intros Hne Hlen. unfold cut, matches. rewrite cut_loop_spec by done.
  by rewrite loop_outcome_ok.
Qed.

Lemma cut_correct_witness :
  cut ["bad"] ["the"; "quick"; "bad"; "fox"] [(10, 12); (20, 30)]%nat
  = (["bad Start: 00:00:00 End: 00:00:00"], inr tt).
Proof.
  rewrite cut_correct; [reflexivity|discriminate|simpl; lia].
Defined.


(** C9: when the transcript has no more words than there are runs, the
    loop raises [IndexError] at the first missing word, after emitting the
    lines of the runs before it: those of the first [len(words) - 1] runs.
    The error is not raised up front. *)
Theorem cut_index_error bad_words words spaces :
  bad_words <> [] -> spaces <> [] -> (length words <= length spaces)%nat ->
  cut bad_words words spaces
  = (map render (matches bad_words words (take (length words - 1) spaces)),
     raise IndexError).
Proof.
  intros Hne Hsp Hlen. unfold cut. rewrite cut_loop_spec by done.
  unfold loop_outcome, matches. rewrite <- matches_at_take.
  destruct spaces as [|spot spaces]; [done|]. simpl length in *.
  rewrite (proj2 (Nat.ltb_ge _ _)) by lia. done.
Qed.

Lemma cut_index_error_witness :
  cut ["bad"] ["so"; "bad"] [(10, 12); (20, 30); (40, 41)]%nat
  = (["bad Start: 00:00:00 End: 00:00:00"], raise IndexError).
Proof.
  rewrite cut_index_error; [reflexivity|discriminate|discriminate|simpl; lia].
Defined.

(** ** Time order of the matches *)

(** The division by 2 of line 276 is exact: [pos_end = -180 + 10 (a + b)]. *)
Lemma pos_end_of_exact a b :
  pos_end_of (a, b) = OFFSET_MS + 10 * (Z.of_nat a + Z.of_nat b).
Proof. unfold pos_end_of, OFFSET_MS, TIME_STRIDE_MS. simpl. zdiv_lia. Qed.

Lemma pos_end_of_before s1 s2 :
  run_wf s1 -> run_wf s2 -> before s1 s2 -> pos_end_of s1 < pos_end_of s2.
Proof.
  destruct s1 as [a1 b1], s2 as [a2 b2]. unfold run_wf, before. simpl. intros.
  rewrite !pos_end_of_exact. lia.
Qed.

(** Consecutive matches: the first ends before the second ends, and no
    later than the second starts. *)
Definition chrono (m1 m2 : Match) : Prop :=
  m_end m1 < m_end m2 /\ m_end m1 <= m_start m2.

Lemma matches_at_chrono bad_words words j spots pos_prev :
  StronglySorted before spots -> Forall run_wf spots ->
  Forall (fun s => pos_prev < pos_end_of s) spots ->
  let ms := matches_at bad_words words j spots pos_prev in
  Sorted chrono ms /\ Forall (fun m => pos_prev <= m_start m < m_end m) ms.
Proof.
  revert j pos_prev; induction spots as [|spot spots IH]; intros j pos_prev HS Hwf Hlt.
  { unfold matches_at, boundaries. simpl. rewrite zip_with_nil_r. by split. }
  inversion HS as [|? ? HS' Hbef]; inversion Hwf as [|? ? Hw0 Hwf']; inversion Hlt as [|? ? Hl0 _];
    subst.
  simpl. rewrite matches_at_cons. destruct (words !! S j) as [w|]; [|by split].
  destruct (IH (S j) (pos_end_of spot)) as [Hsort Hall]; [done|done| |].
  { apply (Forall_impl2 _ _ _ _ Hbef Hwf'). intros s Hb Hws. by apply pos_end_of_before. }
  split.
  - destruct (keyword_hit bad_words w); simpl; [|done].
    constructor; [done|]. destruct (matches_at _ _ _ _ _) as [|m ms]; constructor.
    inversion Hall; subst. unfold chrono. simpl. lia.
  - apply Forall_app. split.
    + destruct (keyword_hit bad_words w); repeat constructor; simpl; lia.
    + eapply Forall_impl; [exact Hall|]. simpl. lia.
Qed.

(** For the runs of the segmenter (sorted, separated), the matches of
    the specification come in time order. *)
Lemma matches_chronological bad_words words spaces :
  StronglySorted before spaces -> Forall run_wf spaces ->
  let ms := matches bad_words words spaces in
  Sorted chrono ms /\ Forall (fun m => m_start m = 0 \/ m_start m < m_end m) ms.
Proof.
  intros HS Hwf. destruct spaces as [|spot spaces].
  { unfold matches, matches_at, boundaries. simpl. rewrite zip_with_nil_r. by split. }
  inversion HS as [|? ? HS' Hbef]; inversion Hwf as [|? ? Hw0 Hwf']; subst.
  unfold matches. simpl. rewrite matches_at_cons. destruct (words !! 1%nat) as [w|]; [|by split].
  destruct (matches_at_chrono bad_words words 1 spaces (pos_end_of spot)) as [Hsort Hall];
    [done|done| |].
  { apply (Forall_impl2 _ _ _ _ Hbef Hwf'). intros s Hb Hws. by apply pos_end_of_before. }
  split.
  - destruct (keyword_hit bad_words w); simpl; [|done].
    constructor; [done|]. destruct (matches_at _ _ _ _ _) as [|m ms]; constructor.
    inversion Hall; subst. unfold chrono. simpl. lia.
  - apply Forall_app. split.
    + destruct (keyword_hit bad_words w); repeat constructor.
    + eapply Forall_impl; [exact Hall|]. simpl. lia.
Qed.

(** Whatever the keywords and the transcript, the lines the loop emits
    before it ends or raises are the rendered matches of the
    specification. *)
Lemma cut_lines bad_words words spaces :
  fst (cut bad_words words spaces) = map render (matches bad_words words spaces).
Proof.
  destruct bad_words as [|k ks].
  - unfold cut. rewrite cut_loop_no_keywords. unfold matches, matches_at.
    generalize (zip_with (fun w b => mk_match w (fst b) (snd b)) (drop 1 words)
      (boundaries 0 spaces)). intros l. by induction l.
  - unfold cut, matches. by rewrite cut_loop_spec.
Qed.

(** C11: on every input, errors included, the lines of lines 274-284 are
    emitted in time order: for the runs of the segmenter (sorted,
    separated), they are the renderings of a list of matches each of which
    ends before the next ends and no later than the next starts, and every
    match after the first boundary starts strictly before it ends. *)
Theorem cut_chronological bad_words words spaces :
  StronglySorted before spaces -> Forall run_wf spaces ->
  let ms := matches bad_words words spaces in
  fst (cut bad_words words spaces) = map render ms
  /\ Sorted chrono ms /\ Forall (fun m => m_start m = 0 \/ m_start m < m_end m) ms.
Proof.
  intros HS Hwf ms. split; [apply cut_lines|]. by apply matches_chronological.
Qed.

Lemma cut_chronological_witness :
  fst (cut ["a"] ["x"; "ab"; "y"; "ba"] [(0, 1); (5, 9); (12, 12)]%nat)
  = ["ab Start: 00:00:00 End: 23:59:59"; "ba Start: 23:59:59 End: 00:00:00"]
  /\ Sorted chrono (matches ["a"] ["x"; "ab"; "y"; "ba"] [(0, 1); (5, 9); (12, 12)]%nat).
Proof.
  assert (HS : StronglySorted before [(0, 1); (5, 9); (12, 12)]%nat).
  { repeat constructor; unfold before; simpl; lia. }
  assert (Hw : Forall run_wf [(0, 1); (5, 9); (12, 12)]%nat).
  { repeat constructor; unfold run_wf; simpl; lia. }
  destruct (cut_chronological ["a"] ["x"; "ab"; "y"; "ba"] _ HS Hw) as (-> & Hs & _).
  split; [reflexivity|exact Hs].
Defined.

(** C13: the first tested word starts at 0 but ends at the calibrated
    boundary, which is negative for a run within the first 180 ms: the
    match is reported with its start after its end, and the end prints as
    [23:59:59]. *)
Theorem first_match_ends_before_start bad_words words a b w :
  words !! 1%nat = Some w -> keyword_hit bad_words w = true -> (a + b < 18)%nat ->
  exists ms, matches bad_words words [(a, b)] = mk_match w 0 (pos_end_of (a, b)) :: ms
    /\ pos_end_of (a, b) < 0.
Proof.
  intros Hw Hhit Hab. exists []. split.
  - unfold matches. rewrite matches_at_cons, Hw, Hhit. simpl.
    unfold matches_at, boundaries. simpl. by rewrite zip_with_nil_r.
  - rewrite pos_end_of_exact. unfold OFFSET_MS. lia.
Qed.

Lemma first_match_ends_before_start_witness :
  cut ["bad"] ["the"; "bad"] [(0, 2)]%nat
  = (["bad Start: 00:00:00 End: 23:59:59"], inr tt)
  /\ exists ms, matches ["bad"] ["the"; "bad"] [(0, 2)]%nat
                = mk_match "bad" 0 (pos_end_of (0, 2)%nat) :: ms /\ pos_end_of (0, 2)%nat < 0.
Proof.
  split; [reflexivity|]. apply first_match_ends_before_start; [done|done|lia].
Defined.

(** ** Which word and which run a match comes from *)

Definition start_of (pos_prev : Z) (spots : list (nat * nat)) (k : nat) : Z :=
  match k with
  | O => pos_prev
  | S k' => default pos_prev (pos_end_of <$> spots !! k')
  end.

Lemma matches_at_In bad_words words j spots pos_prev m :
  In m (matches_at bad_words words j spots pos_prev) ->
  exists k s, words !! S (j + k) = Some (m_word m) /\ spots !! k = Some s
    /\ keyword_hit bad_words (m_word m) = true
    /\ m_start m = start_of pos_prev spots k /\ m_end m = pos_end_of s.
Proof.
  revert j pos_prev; induction spots as [|spot spots IH]; intros j pos_prev Hin.
  { unfold matches_at, boundaries in Hin. simpl in Hin. by rewrite zip_with_nil_r in Hin. }
  rewrite matches_at_cons in Hin. destruct (words !! S j) as [w|] eqn:Hw; [|done].
  apply in_app_or in Hin as [Hin|Hin].
  - destruct (keyword_hit bad_words w) eqn:Hhit; [|done].
    destruct Hin as [<-|[]]. exists 0%nat, spot. rewrite Nat.add_0_r. by split_and!.
  - destruct (IH (S j) (pos_end_of spot) Hin) as (k & s & Hk & Hs & Hhit & Hst & Hen).
    exists (S k), s. rewrite Nat.add_succ_r. split_and!; try done.
    rewrite Hst. destruct k as [|k']; [done|]. simpl.
    destruct (spots !! k') eqn:E; [done|].
    apply lookup_ge_None in E. apply lookup_lt_Some in Hs. lia.
Qed.

(** C10: every line the loop emits names a word [words[j + 1]] that
    contains a keyword, with the interval from the calibrated middle of
    run [j - 1] (0 for [j = 0]) to that of run [j]; [words[0]] is never
    reported. *)
Theorem cut_sound bad_words words spaces line :
  In line (fst (cut bad_words words spaces)) ->
  exists j s w, words !! S j = Some w /\ spaces !! j = Some s
    /\ keyword_hit bad_words w = true
    /\ line = result_line w (start_of 0 spaces j) (pos_end_of s).
Proof.
  destruct bad_words as [|k ks]; [unfold cut; by rewrite cut_loop_no_keywords|].
  unfold cut. rewrite cut_loop_spec by done. simpl. intros (m & <- & Hm)%in_map_iff.
  destruct (matches_at_In _ _ _ _ _ _ Hm) as (j & s & Hw & Hs & Hk & Hst & Hen).
  exists j, s, (m_word m). split_and!; try done. unfold render. by rewrite Hst, Hen.
Qed.

Lemma cut_sound_witness :
  exists j s w, ["the"; "quick"; "bad"] !! S j = Some w /\ [(10, 12); (20, 30)]%nat !! j = Some s
    /\ keyword_hit ["bad"] w = true
    /\ "bad Start: 00:00:00 End: 00:00:00" = result_line w (start_of 0 [(10, 12); (20, 30)]%nat j)
                                                (pos_end_of s).
Proof.
  apply (cut_sound ["bad"] ["the"; "quick"; "bad"] [(10, 12); (20, 30)]%nat).
  vm_compute. by left.
Defined.

End Aligner.
