(* ===== verification/Detector.v ===== *)
(** * The detector thread: [DetectorThread.run] (main_window.py, 215-289)

    [run] transcribes the file twice through the model (the transcript
    and the log-probabilities), applies [softmax] (lines 228-230), runs the
    segmenter and the aligner, and emits a [progress] signal per match.
    Any exception is written to [log.txt]; [finished] is emitted in the
    [finally] clause.

    The model is [Module Detector].  The two model calls are inputs of the
    run, each a [res] value (the model may raise).  The soft-max is a
    parameter: [softmax] computes [exp] of floats, which the development
    does not model; what the theorems use of it is that it fails on a
    zero-size matrix ([np.max] has no identity) and otherwise maps every
    row by an order embedding, so its arg-maxes are those of the logits.
    The result of [run] is the list of signals emitted and the exception
    logged, if any. *)

From S2P Require Import Prelude Argmax Segmenter PyStr Keywords TimeFmt Aligner.

Module Detector.

Import Segmenter PyStr Keywords Aligner.

(** The signals of [DetectorThread] (lines 216-217). *)
Inductive signal : Type :=
| Progress (line : string)
| Finished.

(** [np.max(logits)] is defined when the matrix has an entry. *)
Definition has_entry {L : Type} (logits : list (list L)) : bool :=
  existsb (fun row => negb (bool_decide (row = []))) logits.

Section Run.
Context {L P : Type} `{ScoreOrder L} `{ScoreOrder P}.

(** [self.softmax] of lines 228-230, where it does not raise. *)
Variable softmax : list (list L) -> list (list P).

(** Lines 233-284: the body of the [try], as emitted lines and outcome. *)
Definition run_body (bad_words : list string) (transcript : res string)
    (logits : res (list (list L))) : list string * res unit :=
  match transcript, logits with
  | inl e, _ => ([], inl e)
  | inr _, inl e => ([], inl e)
  | inr t, inr lg =>
      if has_entry lg then
        match get_spaces (softmax lg) with
        | inl e => ([], inl e)
        | inr spaces => cut bad_words (py_split_ws t) spaces
        end
      else ([], raise ValueError)
  end.

(** Lines 232-289: the signals and the logged exception. *)
Definition run (bad_words : list string) (transcript : res string)
    (logits : res (list (list L))) : list signal * option PyExc :=
  let '(lines, outcome) := run_body bad_words transcript logits in
  (map Progress lines ++ [Finished],
   match outcome with inl e => Some e | inr _ => None end).

(** The soft-max is an order embedding on every row. *)
Definition softmax_monotone : Prop :=
  forall lg, Forall2 (fun row row' => exists f, order_embedding f /\ row' = map f row)
                     lg (softmax lg).
End Run.

(** ** Theorems *)

(** The signals of [run]: the lines of the body, then [finished]. *)
Lemma run_signals {L P : Type} `{ScoreOrder L} `{ScoreOrder P}
    (softmax : list (list L) -> list (list P)) bad_words transcript logits :
  fst (run softmax bad_words transcript logits)
  = map Progress (fst (run_body softmax bad_words transcript logits)) ++ [Finished].
Proof. unfold run. by destruct (run_body softmax bad_words transcript logits). Qed.

Lemma run_body_nonempty {L P : Type} `{ScoreOrder L} `{ScoreOrder P}
    (softmax : list (list L) -> list (list P)) bad_words transcript logits :
  Forall (fun l => l <> "") (fst (run_body softmax bad_words transcript logits)).
Proof.
  unfold run_body. destruct transcript, logits; try done. destruct (has_entry l); [|done].
  destruct (get_spaces (softmax l)); [done|]. apply cut_loop_nonempty.
Qed.

(** C12: whatever the model returns or raises, [run] emits its progress
    lines and then [finished], exactly once and last; every progress line
    is non-empty, so the guard [if not result: return] of
    [onDetectingProgress] never fires. *)
Theorem run_finishes {L P : Type} `{ScoreOrder L} `{ScoreOrder P}
    (softmax : list (list L) -> list (list P)) bad_words transcript logits :
  exists lines, fst (run softmax bad_words transcript logits)
                = map Progress lines ++ [Finished]
    /\ Forall (fun l => l <> "") lines.
Proof. rewrite run_signals. eexists. split; [done|apply run_body_nonempty]. Qed.

(** The body on a non-empty matrix whose transcript has more words than
    runs: the aligner's specification, and a normal end. *)
Lemma run_body_matches {L P : Type} `{ScoreOrder L} `{ScoreOrder P}
    (softmax : list (list L) -> list (list P)) bad_words t lg spaces :
  softmax_monotone softmax -> has_entry lg = true ->
  get_spaces lg = inr spaces -> bad_words <> [] ->
  (length spaces < length (py_split_ws t))%nat ->
  run_body softmax bad_words (inr t) (inr lg)
  = (map render (matches bad_words (py_split_ws t) spaces), inr tt).
Proof.
  intros Hsm Hent Hsp Hne Hlen. unfold run_body. rewrite Hent.
  unfold get_spaces in *. rewrite (argmax_rows_embedding lg (softmax lg) (Hsm lg)), Hsp.
  unfold cut. by rewrite cut_loop_spec, loop_outcome_ok.
Qed.

(** The identity, the soft-max of the demonstrations, is monotone. *)
Lemma softmax_monotone_id {L : Type} `{ScoreOrder L} : softmax_monotone (fun lg : list (list L) => lg).
Proof.
  intros lg. induction lg as [|row lg IH]; constructor; [|done].
  exists (fun x => x). split; [done|]. by rewrite map_id.
Qed.

(** C14: with the keywords of a box that ends with a comma, every tested
    word is reported: [matches] keeps all the words [words[1..]] that have
    a run. *)
Theorem trailing_comma_reports_all raw words spaces :
  matches (get_bad_words (raw +:+ ",")) words spaces
  = zip_with (fun w b => mk_match w (fst b) (snd b)) (drop 1 words) (boundaries 0 spaces).
Proof.
  unfold matches, matches_at. apply filter_all_true. intros m _.
  apply empty_keyword_hits_all, get_bad_words_trailing_comma.
Qed.

Lemma trailing_comma_reports_all_witness :
  matches (get_bad_words "bad,") ["the"; "quick"; "fox"] [(10, 12); (20, 30)]%nat
  = [mk_match "quick" 0 40; mk_match "fox" 40 320].
Proof. exact (trailing_comma_reports_all "bad" ["the"; "quick"; "fox"] [(10, 12); (20, 30)]%nat). Defined.

(** Matching is case-sensitive on the side of the transcript: the box
    ["bad"] reports the word ["bad"] but not ["Bad"], although the
    lower-cased word contains the keyword. *)
Example keyword_match_case_sensitive :
  matches (get_bad_words "bad") ["so"; "Bad"] [(3, 4)]%nat = []
  /\ keyword_hit (get_bad_words "bad") (py_lower "Bad") = true
  /\ matches (get_bad_words "bad") ["so"; "bad"] [(3, 4)]%nat = [mk_match "bad" 0 (-110)].
Proof. split_and!; reflexivity. Qed.

End Detector.
