(* ===== verification/Softmax.v ===== *)
(** * [DetectorThread.softmax] (main_window.py, 228-230)

    [e = np.exp(logits - np.max(logits))] subtracts the largest entry of
    the whole matrix from every entry and exponentiates; [e / e.sum(axis=-1)
    .reshape([logits.shape[0], 1])] divides every row by its own sum.

    The model computes over [Q], exact rationals standing for the reals
    the floats approximate.  [exp] is not a rational function: it is a
    parameter of [Section Softmax], assumed positive, strictly increasing
    and compatible with the equality [==] of [Q], which is all the
    theorems use of it.  [np.max] of a zero-size matrix raises
    [ValueError]; NaN, infinities, overflow and underflow of the floats are
    not modelled.

    The theorems: [np.max] is the largest entry; the soft-max fails exactly
    when [Detector.run_body] says it does; every row of the result is a
    probability distribution; and every row is an order embedding of its
    logits, which discharges the hypothesis [softmax_monotone] of the
    detector's theorems for the code's own soft-max. *)

From S2P Require Import Prelude Argmax Segmenter PyStr Keywords TimeFmt Aligner Detector.
From Stdlib Require Import QArith Lqa Morphisms.

Module Softmax.

Import Detector.
Local Open Scope Q_scope.

(** numpy's [maximum] of two non-NaN numbers. *)
Definition q_max (a b : Q) : Q := if Qle_bool a b then b else a.

(** [np.max(logits)]: the largest entry; a zero-size array raises. *)
Definition np_max (m : list (list Q)) : res Q :=
  match concat m with
  | [] => raise ValueError
  | x :: xs => inr (fold_left q_max xs x)
  end.

(** [e.sum()] of one row. *)
Fixpoint q_sum (xs : list Q) : Q :=
  match xs with
  | [] => 0
  | x :: xs' => x + q_sum xs'
  end.

Section Softmax.

(** [np.exp] *)
Variable exp : Q -> Q.

(** One row of [e / e.sum(axis=-1).reshape(...)], [M] being [np.max]. *)
Definition softmax_row (M : Q) (row : list Q) : list Q :=
  let e := map (fun x => exp (x - M)) row in
  map (fun y => y / q_sum e) e.

(** Lines 228-230. *)
Definition py_softmax (logits : list (list Q)) : res (list (list Q)) :=
  M <-? np_max logits ;; inr (map (softmax_row M) logits).

(** The value of lines 228-230 where they do not raise: the parameter
    [softmax] of [Detector.run]. *)
Definition softmax_of (logits : list (list Q)) : list (list Q) :=
  let M := match np_max logits with inr M => M | inl _ => 0 end in
  map (softmax_row M) logits.

End Softmax.

(** ** [np.max] *)

Lemma fold_q_max_ge xs a : a <= fold_left q_max xs a /\ Forall (fun x => x <= fold_left q_max xs a) xs.
Proof.
  revert a; induction xs as [|x xs IH]; intros a; simpl; [split; [apply Qle_refl|done]|].
  destruct (IH (q_max a x)) as [H1 H2]. unfold q_max in *.
  destruct (Qle_bool a x) eqn:E; [apply Qle_bool_iff in E|apply not_true_iff_false in E;
    rewrite Qle_bool_iff in E; apply Qnot_le_lt in E].
  - split; [|constructor; [exact H1|exact H2]]. eapply Qle_trans; eassumption.
  - split; [exact H1|constructor; [|exact H2]]. apply Qlt_le_weak. eapply Qlt_le_trans; eassumption.
Qed.

Lemma fold_q_max_in xs a : fold_left q_max xs a = a \/ In (fold_left q_max xs a) xs.
Proof.
  revert a; induction xs as [|x xs IH]; intros a; simpl; [by left|].
  destruct (IH (q_max a x)) as [->|Hin]; [|by right; right].
  unfold q_max. destruct (Qle_bool a x); [by right; left|by left].
Qed.

Lemma has_entry_concat {L : Type} (m : list (list L)) : has_entry m = false <-> concat m = [].
Proof.
  induction m as [|row m IH]; [done|]. simpl. rewrite orb_false_iff, IH.
  destruct row; simpl; [by split; [intros [_ ?]|]|]. split; [by intros []|done].
Qed.

(** ** Sums of positive numbers *)

Lemma q_sum_nonneg xs : Forall (fun x => 0 < x) xs -> 0 <= q_sum xs.
Proof. induction 1; simpl; lra. Qed.

Lemma q_sum_pos xs : Forall (fun x => 0 < x) xs -> xs <> [] -> 0 < q_sum xs.
Proof.
  intros Hp Hne. destruct Hp as [|x xs Hx Hxs]; [done|]. simpl.
  pose proof (q_sum_nonneg xs Hxs). lra.
Qed.

Lemma q_sum_ge xs y : Forall (fun x => 0 < x) xs -> In y xs -> y <= q_sum xs.
Proof.
  induction 1 as [|x xs Hx Hxs IH]; [done|]. simpl. intros [->|Hin].
  - pose proof (q_sum_nonneg xs Hxs). lra.
  - specialize (IH Hin). lra.
Qed.

Lemma q_sum_div xs s : q_sum (map (fun y => y / s) xs) == q_sum xs / s.
Proof.
  induction xs as [|x xs IH]; simpl; [reflexivity|]. rewrite IH. unfold Qdiv.
  symmetry. apply Qmult_plus_distr_l.
Qed.

Lemma div_le_iff s a b : 0 < s -> (a / s <= b / s <-> a <= b).
Proof. intros Hs. unfold Qdiv. apply Qmult_le_r, Qinv_lt_0_compat, Hs. Qed.

Lemma Q_gtb_iff (x y : Q) : score_gtb x y = negb (Qle_bool x y).
Proof. reflexivity. Qed.

(** An increasing function that reflects [<=] is an order embedding. *)
Lemma le_iff_embedding (f : Q -> Q) : (forall x y, f x <= f y <-> x <= y) -> order_embedding f.
Proof.
  intros Hf x y. rewrite !Q_gtb_iff. f_equal.
  destruct (Qle_bool x y) eqn:E.
  - apply Qle_bool_iff. apply Hf, Qle_bool_iff, E.
  - apply not_true_iff_false. rewrite Qle_bool_iff, Hf, <- Qle_bool_iff, E. done.
Qed.

Section Props.

Variable np_exp : Q -> Q.
Hypothesis exp_pos : forall x, 0 < np_exp x.
Hypothesis exp_lt : forall x y, x < y -> np_exp x < np_exp y.
Hypothesis exp_wd : Proper (Qeq ==> Qeq) np_exp.

Lemma exp_le_iff x y : np_exp x <= np_exp y <-> x <= y.
Proof.
  split.
  - intros Hle. apply Qnot_lt_le. intros Hlt. specialize (exp_lt _ _ Hlt). lra.
  - intros Hle. apply Qle_lt_or_eq in Hle as [Hlt|Heq].
    + apply Qlt_le_weak, exp_lt, Hlt.
    + rewrite Heq. apply Qle_refl.
Qed.

Lemma exps_pos M row : Forall (fun x => 0 < x) (map (fun x => np_exp (x - M)) row).
Proof. apply Forall_map, Forall_forall. intros x _. apply exp_pos. Qed.

(** The row of the soft-max is the row of logits mapped by one order
    embedding. *)
Lemma softmax_row_embedding M row :
  exists f, order_embedding f /\ softmax_row np_exp M row = map f row.
Proof.
  destruct row as [|x0 row']; [exists (fun x => x); split; [intros ??; done|done]|].
  set (s := q_sum (map (fun x => np_exp (x - M)) (x0 :: row'))).
  assert (Hs : 0 < s) by (apply q_sum_pos; [apply exps_pos|done]).
  exists (fun x => np_exp (x - M) / s). split.
  - apply le_iff_embedding. intros x y. rewrite div_le_iff, exp_le_iff by done. lra.
  - unfold softmax_row. by rewrite map_map.
Qed.

(** A row of the soft-max of a non-empty row of logits. *)
Lemma softmax_row_distribution M row :
  row <> [] ->
  Forall (fun p => 0 < p <= 1) (softmax_row np_exp M row)
  /\ q_sum (softmax_row np_exp M row) == 1.
Proof.
  intros Hne. unfold softmax_row.
  set (e := map (fun x => np_exp (x - M)) row).
  assert (He : Forall (fun x => 0 < x) e) by apply exps_pos.
  assert (Hs : 0 < q_sum e) by (apply q_sum_pos; [done|by destruct row]).
  split.
  - apply Forall_map, Forall_forall. intros y Hy.
    pose proof (proj1 (Forall_forall _ _) He y Hy) as Hy0.
    apply list_elem_of_In in Hy. pose proof (q_sum_ge e y He Hy) as Hys. split.
    + unfold Qdiv. apply Qmult_lt_0_compat; [done|by apply Qinv_lt_0_compat].
    + rewrite <- (Qmult_inv_r (q_sum e)) by (intros E; rewrite E in Hs; discriminate).
      by apply div_le_iff.
  - rewrite q_sum_div. unfold Qdiv. apply Qmult_inv_r. intros E. rewrite E in Hs. discriminate.
Qed.

(** C24: every non-empty row of the soft-max is a probability
    distribution: its entries are in (0, 1] and they sum to 1. *)
Theorem softmax_rows_distribution logits row :
  In row (softmax_of np_exp logits) -> row <> [] ->
  Forall (fun p => 0 < p <= 1) row /\ q_sum row == 1.
Proof.
  intros Hin Hne. unfold softmax_of in Hin. apply in_map_iff in Hin as (r & <- & _).
  apply softmax_row_distribution. by intros ->.
Qed.

Lemma softmax_of_embedding : softmax_monotone (softmax_of np_exp).
Proof.
  intros lg. unfold softmax_of. generalize (match np_max lg with inr M => M | inl _ => 0 end).
  intros M. induction lg as [|row lg IH]; constructor; [|exact IH].
  apply softmax_row_embedding.
Qed.

(** C3: with the code's own soft-max, [DetectorThread.run] on a
    non-empty matrix whose transcript has more words than runs reports
    exactly the matches of the aligner's specification for the runs of
    the logits, then [finished], and logs nothing. *)
Theorem run_softmax_reports_matches bad_words t lg spaces :
  has_entry lg = true -> Segmenter.get_spaces lg = inr spaces -> bad_words <> [] ->
  (length spaces < length (PyStr.py_split_ws t))%nat ->
  run (softmax_of np_exp) bad_words (inr t) (inr lg)
  = (map (fun m => Progress (Aligner.render m))
         (Aligner.matches bad_words (PyStr.py_split_ws t) spaces) ++ [Finished], None).
Proof.
  intros Hent Hsp Hne Hlen. unfold run.
  rewrite (run_body_matches (softmax_of np_exp) bad_words t lg spaces) by
    (done || apply softmax_of_embedding). by rewrite map_map.
Qed.

End Props.

(** ** Theorems on [np.max] and on the failure of the soft-max *)

(** C25: [np.max] returns an entry of the matrix that no entry exceeds. *)
Theorem np_max_spec m M :
  np_max m = inr M -> In M (concat m) /\ Forall (fun x => x <= M) (concat m).
Proof.
  unfold np_max. destruct (concat m) as [|x xs]; [done|]. intros [= <-].
  destruct (fold_q_max_ge xs x) as [H1 H2]. split.
  - destruct (fold_q_max_in xs x) as [->|Hin]; [by left|by right].
  - by constructor.
Qed.

(** Lines 228-230 raise [ValueError] exactly on a matrix without an
    entry, which is the test [has_entry] of [Detector.run_body]; otherwise
    they return [softmax_of], the parameter given to [Detector.run]. *)
Lemma py_softmax_spec np_exp logits :
  py_softmax np_exp logits
  = if has_entry logits then inr (softmax_of np_exp logits) else raise ValueError.
Proof.
  unfold py_softmax, softmax_of. destruct (has_entry logits) eqn:E.
  - destruct (np_max logits) as [e|M] eqn:Hm; [|done].
    unfold np_max in Hm. destruct (concat logits) eqn:Hc; [|done].
    apply has_entry_concat in Hc. congruence.
  - apply has_entry_concat in E. unfold np_max. by rewrite E.
Qed.

(** ** A concrete exponential, to run the theorems *)

(** [1 + x] on the non-negative numbers and [1 / (1 - x)] on the negative
    ones: positive, strictly increasing, compatible with [==]. *)
Definition demo_exp (x : Q) : Q := if Qle_bool 0 x then 1 + x else / (1 - x).

Lemma Qle_bool_false a b : Qle_bool a b = false -> b < a.
Proof. intros E. apply Qnot_le_lt. intros H. apply Qle_bool_iff in H. congruence. Qed.

Ltac Qle_bool_hyps :=
  repeat match goal with
  | H : Qle_bool _ _ = true |- _ => apply Qle_bool_iff in H
  | H : Qle_bool _ _ = false |- _ => apply Qle_bool_false in H
  end.

Lemma demo_exp_pos x : 0 < demo_exp x.
Proof.
  unfold demo_exp. destruct (Qle_bool 0 x) eqn:E; Qle_bool_hyps; [lra|].
  apply Qinv_lt_0_compat. lra.
Qed.

Lemma demo_exp_neg_lt1 x : x < 0 -> / (1 - x) < 1.
Proof.
  intros Hx. apply (proj1 (Qinv_lt_contravar 1 (1 - x) ltac:(lra) ltac:(lra))). lra.
Qed.

Lemma demo_exp_lt x y : x < y -> demo_exp x < demo_exp y.
Proof.
  intros Hxy. unfold demo_exp.
  destruct (Qle_bool 0 x) eqn:Ex, (Qle_bool 0 y) eqn:Ey; Qle_bool_hyps; [lra|lra| |].
  - eapply Qlt_le_trans; [apply demo_exp_neg_lt1, Ex|lra].
  - apply (proj1 (Qinv_lt_contravar (1 - y) (1 - x) ltac:(lra) ltac:(lra))). lra.
Qed.

#[export] Instance demo_exp_wd : Proper (Qeq ==> Qeq) demo_exp.
Proof.
  intros x y Hxy. unfold demo_exp.
  assert (Hb : Qle_bool 0 x = Qle_bool 0 y).
  { apply eq_true_iff_eq. rewrite !Qle_bool_iff. rewrite Hxy. done. }
  rewrite Hb. destruct (Qle_bool 0 y); rewrite Hxy; reflexivity.
Qed.

Lemma np_max_spec_witness :
  np_max [[1; 3]; [2]] = inr 3 /\ In 3 (concat [[1; 3]; [2]])
  /\ Forall (fun x => x <= 3) (concat [[1; 3]; [2]]).
Proof. split; [reflexivity|]. apply np_max_spec. reflexivity. Defined.

Lemma softmax_rows_distribution_witness :
  Forall (fun p => 0 < p <= 1) (softmax_row demo_exp 0 [0; -1])
  /\ q_sum (softmax_row demo_exp 0 [0; -1]) == 1.
Proof.
  apply (softmax_rows_distribution demo_exp demo_exp_pos [[0; -1]]).
  - left. reflexivity.
  - discriminate.
Defined.

Lemma run_softmax_reports_matches_witness :
  run (softmax_of demo_exp) ["bad"] (inr "the quick bad fox")
      (inr [[9; 1]; [1; 9]; [9; 1]; [1; 9]; [9; 1]])
  = ([Progress "bad Start: 23:59:59 End: 23:59:59"; Finished], None).
Proof.
  rewrite (run_softmax_reports_matches demo_exp demo_exp_pos demo_exp_lt demo_exp_wd
             ["bad"] "the quick bad fox" [[9; 1]; [1; 9]; [9; 1]; [1; 9]; [9; 1]]
             [(0, 0); (2, 2); (4, 4)]%nat).
  - reflexivity.
  - reflexivity.
  - reflexivity.
  - discriminate.
  - simpl. lia.
Defined.

End Softmax.
