(* ===== verification/Controller.v ===== *)
(** * The controller: [MainWindow] and its worker threads (main_window.py, 16-212)

    The window's slots react to clicks and to the signals of three worker
    threads.  A worker's [run] executes on its own thread; the signals it
    emits are queued and delivered to the window's slots later, in order,
    by the Qt event loop.  [ConvertThread] starts ffmpeg with [Popen] and
    does not wait for it: the conversion finishes at a time of its own.

    The model is [Module Controller].  The state [world] holds the fields
    of [MainWindow] ([asr_model], [file], [bad_words]), what the window
    shows (spinner, enabled central widget, status text, result list,
    message boxes), and the environment: the files on disk (a [gmap] from
    path to content), the worker jobs started and not yet run, the queue of
    emitted signals, the running ffmpeg processes and [log.txt].  Every
    slot and every worker [run] is a function on [world]; [step] is the
    relation of all moves (a click on an enabled widget, a worker running,
    a queued signal delivered, an ffmpeg process finishing) and [reachable]
    its closure from the initial state.

    The widgets [btnLoadModel], [btnOpen], [btnStart] and [txtBadWords]
    are children of the central widget (the generated [Ui_MainWindow] is
    not in the sources): a click needs the central widget enabled.  The
    spinner's looks are not modelled.

    A worker's [run] is one atomic step: [DetectorThread.run] calls
    [transcribe] twice (lines 235 and 238) and the model reads the file
    on disk once for both; a WAV that ffmpeg has half written is not
    modelled (ffmpeg writes its output in one step, [ffmpeg_done]).  Real
    ffmpeg creates its output when it starts and, without [-y], does not
    overwrite an existing one; the end-to-end theorems start with no
    ffmpeg process running and start at most one, so they do not depend
    on this difference.

    [model_thread], [convert_thread] and [api_thread] hold [None], a live
    thread or a destroyed one ([deleteLater] destroys it when the slot
    returns to the event loop); [closeEvent] calls [terminate], which
    stops the thread's pending [run], and raises [RuntimeError] on a
    destroyed thread, which its bare [except] swallows.

    The theorems: the invariant [ui_inv] of all reachable states (the
    spinner, the enabled window and the jobs in flight agree), and
    [threads_inv] (the slots meet live threads only); without clicks the
    system comes to rest ([pending] and [backlog] measure what is left);
    closing the window after a model load never stops a conversion; the
    guards of [Start]; a failed model load freezes the window for ever; a second [Start] converts
    [outfile] onto itself and reports nothing under every schedule; and
    the two schedules of ffmpeg against the detector: the run that ends
    with the specified matches, and the run that loses them. *)

From stdpp Require Import gmap.
From S2P Require Import Prelude Argmax Segmenter PyStr Keywords TimeFmt Aligner Detector.

Module Controller.

Import PyStr Keywords Detector.
Local Open Scope string_scope.
Local Open Scope list_scope.

(** The loaded NeMo model: an opaque object. *)
Inductive nemo_model : Type := NemoModel.

(** What a file holds: the user's audio, or its WAV conversion. *)
Inductive content : Type :=
| Source (audio : nat)
| Wav (audio : nat).

Definition audio_of (c : content) : nat :=
  match c with Source a | Wav a => a end.

(** A started worker whose [run] has not executed yet. *)
Inductive job : Type :=
| JobLoad                                       (** [ModelLoadingThread] *)
| JobConvert (src out : string)                 (** [ConvertThread] *)
| JobDetect (file : string) (bad_words : list string).  (** [DetectorThread] *)

(** The signals the workers emit towards the window. *)
Inductive gui_signal : Type :=
| SigModelLoaded (m : nemo_model)   (** [ModelLoadingThread.finished] *)
| SigConverted                      (** [ConvertThread.finished] *)
| SigProgress (line : string)       (** [DetectorThread.progress] *)
| SigDetected.                      (** [DetectorThread.finished] *)

(** An ffmpeg process started by [Popen]: input and output paths. *)
Record ffmpeg_proc : Type := mk_proc { p_in : string; p_out : string }.

(** The spinner built in [__init__] (lines 28-38): the parameters it is
    drawn with.  They are set once and never read by the program; the
    floats [70.0], [15.0], [70.0] are integral and kept as integers.
    Whether it turns is [spinner_on] of [world]. *)
Record spinner_config : Type := mk_spinner {
  sp_roundness : Z;
  sp_min_trail_opacity : Z;
  sp_trail_fade_percentage : Z;
  sp_number_of_lines : Z;
  sp_line_length : Z;
  sp_line_width : Z;
  sp_inner_radius : Z;
  sp_revolutions_per_second : Z;
  sp_color : Z * Z * Z
}.

Definition spinner_init : spinner_config :=
  {| sp_roundness := 70; sp_min_trail_opacity := 15; sp_trail_fade_percentage := 70;
     sp_number_of_lines := 12; sp_line_length := 10; sp_line_width := 5;
     sp_inner_radius := 10; sp_revolutions_per_second := 1; sp_color := (81, 4, 71) |}%Z.

(** The Python object behind [self.model_thread], [self.convert_thread]
    or [self.api_thread]: a live [QThread], or one whose C++ object
    [deleteLater] has destroyed (the wrapper is still truthy, and calling a
    method on it raises [RuntimeError]). *)
Inductive qthread : Type := ThreadLive | ThreadDeleted.

Record world : Type := mk_world {
  (* fields of MainWindow *)
  asr_model : option nemo_model;
  file : option string;
  bad_words : list string;
  model_thread : option qthread;
  convert_thread : option qthread;
  api_thread : option qthread;
  (* what the window shows *)
  spinner_on : bool;
  central_enabled : bool;
  load_enabled : bool;
  status : string;
  file_text : string;
  results : list string;
  dialogs : list string;
  (* the environment *)
  fs : gmap string content;
  jobs : list job;
  queue : list gui_signal;
  procs : list ffmpeg_proc;
  log : list PyExc
}.

(** The initial state ([__init__], lines 17-26): nothing loaded, idle. *)
Definition init_world (disk : gmap string content) : world :=
  {| asr_model := None; file := None; bad_words := [];
     model_thread := None; convert_thread := None; api_thread := None;
     spinner_on := false; central_enabled := true; load_enabled := true;
     status := ""; file_text := ""; results := []; dialogs := [];
     fs := disk; jobs := []; queue := []; procs := []; log := [] |}.

(** Field updates, one per attribute the code assigns. *)
Definition set_asr_model (v : option nemo_model) (w : world) : world :=
  {| asr_model := v; file := file w; bad_words := bad_words w;
     model_thread := model_thread w; convert_thread := convert_thread w;
     api_thread := api_thread w; spinner_on := spinner_on w;
     central_enabled := central_enabled w; load_enabled := load_enabled w;
     status := status w; file_text := file_text w; results := results w;
     dialogs := dialogs w; fs := fs w; jobs := jobs w; queue := queue w;
     procs := procs w; log := log w |}.
Definition set_file (v : option string) (w : world) : world :=
  {| asr_model := asr_model w; file := v; bad_words := bad_words w;
     model_thread := model_thread w; convert_thread := convert_thread w;
     api_thread := api_thread w; spinner_on := spinner_on w;
     central_enabled := central_enabled w; load_enabled := load_enabled w;
     status := status w; file_text := file_text w; results := results w;
     dialogs := dialogs w; fs := fs w; jobs := jobs w; queue := queue w;
     procs := procs w; log := log w |}.
Definition set_bad_words (v : list string) (w : world) : world :=
  {| asr_model := asr_model w; file := file w; bad_words := v;
     model_thread := model_thread w; convert_thread := convert_thread w;
     api_thread := api_thread w; spinner_on := spinner_on w;
     central_enabled := central_enabled w; load_enabled := load_enabled w;
     status := status w; file_text := file_text w; results := results w;
     dialogs := dialogs w; fs := fs w; jobs := jobs w; queue := queue w;
     procs := procs w; log := log w |}.
Definition set_model_thread (v : option qthread) (w : world) : world :=
  {| asr_model := asr_model w; file := file w; bad_words := bad_words w;
     model_thread := v; convert_thread := convert_thread w; api_thread := api_thread w;
     spinner_on := spinner_on w; central_enabled := central_enabled w;
     load_enabled := load_enabled w; status := status w; file_text := file_text w;
     results := results w; dialogs := dialogs w; fs := fs w; jobs := jobs w;
     queue := queue w; procs := procs w; log := log w |}.
Definition set_convert_thread (v : option qthread) (w : world) : world :=
  {| asr_model := asr_model w; file := file w; bad_words := bad_words w;
     model_thread := model_thread w; convert_thread := v; api_thread := api_thread w;
     spinner_on := spinner_on w; central_enabled := central_enabled w;
     load_enabled := load_enabled w; status := status w; file_text := file_text w;
     results := results w; dialogs := dialogs w; fs := fs w; jobs := jobs w;
     queue := queue w; procs := procs w; log := log w |}.
Definition set_api_thread (v : option qthread) (w : world) : world :=
  {| asr_model := asr_model w; file := file w; bad_words := bad_words w;
     model_thread := model_thread w; convert_thread := convert_thread w; api_thread := v;
     spinner_on := spinner_on w; central_enabled := central_enabled w;
     load_enabled := load_enabled w; status := status w; file_text := file_text w;
     results := results w; dialogs := dialogs w; fs := fs w; jobs := jobs w;
     queue := queue w; procs := procs w; log := log w |}.
Definition set_spinner_on (v : bool) (w : world) : world :=
  {| asr_model := asr_model w; file := file w; bad_words := bad_words w;
     model_thread := model_thread w; convert_thread := convert_thread w;
     api_thread := api_thread w; spinner_on := v; central_enabled := central_enabled w;
     load_enabled := load_enabled w; status := status w; file_text := file_text w;
     results := results w; dialogs := dialogs w; fs := fs w; jobs := jobs w;
     queue := queue w; procs := procs w; log := log w |}.
Definition set_central_enabled (v : bool) (w : world) : world :=
  {| asr_model := asr_model w; file := file w; bad_words := bad_words w;
     model_thread := model_thread w; convert_thread := convert_thread w;
     api_thread := api_thread w; spinner_on := spinner_on w; central_enabled := v;
     load_enabled := load_enabled w; status := status w; file_text := file_text w;
     results := results w; dialogs := dialogs w; fs := fs w; jobs := jobs w;
     queue := queue w; procs := procs w; log := log w |}.
Definition set_load_enabled (v : bool) (w : world) : world :=
  {| asr_model := asr_model w; file := file w; bad_words := bad_words w;
     model_thread := model_thread w; convert_thread := convert_thread w;
     api_thread := api_thread w; spinner_on := spinner_on w;
     central_enabled := central_enabled w; load_enabled := v; status := status w;
     file_text := file_text w; results := results w; dialogs := dialogs w; fs := fs w;
     jobs := jobs w; queue := queue w; procs := procs w; log := log w |}.
Definition set_status (v : string) (w : world) : world :=
  {| asr_model := asr_model w; file := file w; bad_words := bad_words w;
     model_thread := model_thread w; convert_thread := convert_thread w;
     api_thread := api_thread w; spinner_on := spinner_on w;
     central_enabled := central_enabled w; load_enabled := load_enabled w; status := v;
     file_text := file_text w; results := results w; dialogs := dialogs w; fs := fs w;
     jobs := jobs w; queue := queue w; procs := procs w; log := log w |}.
Definition set_file_text (v : string) (w : world) : world :=
  {| asr_model := asr_model w; file := file w; bad_words := bad_words w;
     model_thread := model_thread w; convert_thread := convert_thread w;
     api_thread := api_thread w; spinner_on := spinner_on w;
     central_enabled := central_enabled w; load_enabled := load_enabled w;
     status := status w; file_text := v; results := results w; dialogs := dialogs w;
     fs := fs w; jobs := jobs w; queue := queue w; procs := procs w; log := log w |}.
Definition set_results (v : list string) (w : world) : world :=
  {| asr_model := asr_model w; file := file w; bad_words := bad_words w;
     model_thread := model_thread w; convert_thread := convert_thread w;
     api_thread := api_thread w; spinner_on := spinner_on w;
     central_enabled := central_enabled w; load_enabled := load_enabled w;
     status := status w; file_text := file_text w; results := v; dialogs := dialogs w;
     fs := fs w; jobs := jobs w; queue := queue w; procs := procs w; log := log w |}.
Definition set_dialogs (v : list string) (w : world) : world :=
  {| asr_model := asr_model w; file := file w; bad_words := bad_words w;
     model_thread := model_thread w; convert_thread := convert_thread w;
     api_thread := api_thread w; spinner_on := spinner_on w;
     central_enabled := central_enabled w; load_enabled := load_enabled w;
     status := status w; file_text := file_text w; results := results w; dialogs := v;
     fs := fs w; jobs := jobs w; queue := queue w; procs := procs w; log := log w |}.
Definition set_fs (v : gmap string content) (w : world) : world :=
  {| asr_model := asr_model w; file := file w; bad_words := bad_words w;
     model_thread := model_thread w; convert_thread := convert_thread w;
     api_thread := api_thread w; spinner_on := spinner_on w;
     central_enabled := central_enabled w; load_enabled := load_enabled w;
     status := status w; file_text := file_text w; results := results w;
     dialogs := dialogs w; fs := v; jobs := jobs w; queue := queue w; procs := procs w;
     log := log w |}.
Definition set_jobs (v : list job) (w : world) : world :=
  {| asr_model := asr_model w; file := file w; bad_words := bad_words w;
     model_thread := model_thread w; convert_thread := convert_thread w;
     api_thread := api_thread w; spinner_on := spinner_on w;
     central_enabled := central_enabled w; load_enabled := load_enabled w;
     status := status w; file_text := file_text w; results := results w;
     dialogs := dialogs w; fs := fs w; jobs := v; queue := queue w; procs := procs w;
     log := log w |}.
Definition set_queue (v : list gui_signal) (w : world) : world :=
  {| asr_model := asr_model w; file := file w; bad_words := bad_words w;
     model_thread := model_thread w; convert_thread := convert_thread w;
     api_thread := api_thread w; spinner_on := spinner_on w;
     central_enabled := central_enabled w; load_enabled := load_enabled w;
     status := status w; file_text := file_text w; results := results w;
     dialogs := dialogs w; fs := fs w; jobs := jobs w; queue := v; procs := procs w;
     log := log w |}.
Definition set_procs (v : list ffmpeg_proc) (w : world) : world :=
  {| asr_model := asr_model w; file := file w; bad_words := bad_words w;
     model_thread := model_thread w; convert_thread := convert_thread w;
     api_thread := api_thread w; spinner_on := spinner_on w;
     central_enabled := central_enabled w; load_enabled := load_enabled w;
     status := status w; file_text := file_text w; results := results w;
     dialogs := dialogs w; fs := fs w; jobs := jobs w; queue := queue w; procs := v;
     log := log w |}.
Definition set_log (v : list PyExc) (w : world) : world :=
  {| asr_model := asr_model w; file := file w; bad_words := bad_words w;
     model_thread := model_thread w; convert_thread := convert_thread w;
     api_thread := api_thread w; spinner_on := spinner_on w;
     central_enabled := central_enabled w; load_enabled := load_enabled w;
     status := status w; file_text := file_text w; results := results w;
     dialogs := dialogs w; fs := fs w; jobs := jobs w; queue := queue w;
     procs := procs w; log := v |}.

(** [w |> f] applies the statement [f] to the state [w]: a slot's body is
    its statements in order. *)
Notation "w |> f" := (f w) (at level 50, left associativity, only parsing) : py_scope.

Definition add_job (j : job) (w : world) : world := set_jobs (jobs w ++ [j]) w.
Definition emit (s : gui_signal) (w : world) : world := set_queue (queue w ++ [s]) w.
Definition show_dialog (msg : string) (w : world) : world := set_dialogs (dialogs w ++ [msg]) w.
Definition write_log (e : PyExc) (w : world) : world := set_log (log w ++ [e]) w.

Section Window.
Context {L P : Type} `{ScoreOrder L} `{ScoreOrder P}.

(** [DetectorThread.softmax] (lines 228-230). *)
Variable softmax : list (list L) -> list (list P).
(** What the model transcribes from an audio: the text and the logits. *)
Variable asr : nat -> string * list (list L).
(** [QDir.currentPath()] (line 118). *)
Variable cwd : string.

Definition outfile : string := cwd +:+ "/outfile.wav".

(** Lines 62-73. *)
Definition on_btnLoadModel_clicked (w : world) : world :=
  match asr_model w with
  | Some _ => w
  | None =>
      w |> set_status "Loading model..." |> set_spinner_on true
        |> set_central_enabled false |> set_model_thread (Some ThreadLive) |> add_job JobLoad
  end.

(** Lines 75-82.  The thread has emitted [finished] as its last statement:
    [terminate] ends nothing, [deleteLater] destroys the object. *)
Definition onModelLoadingFinished (m : nemo_model) (w : world) : world :=
  w |> set_asr_model (Some m) |> set_spinner_on false |> set_central_enabled true
    |> set_status "Model prepaired" |> set_load_enabled false
    |> set_model_thread (Some ThreadDeleted).

(** Lines 85-92: [choice] is what the file dialog returns, [""] on cancel. *)
Definition on_btnOpen_clicked (choice : string) (w : world) : world :=
  if String.eqb choice "" then w
  else w |> set_file (Some choice) |> set_file_text choice.

(** Lines 94-99. *)
Definition mw_get_bad_words (raw : string) (w : world) : world :=
  set_bad_words (get_bad_words raw) w.

(** [not self.file] *)
Definition no_file (f : option string) : bool :=
  match f with None => true | Some s => String.eqb s "" end.

(** Lines 102-125: [raw] is the text of the keyword box. *)
Definition on_btnStart_clicked (raw : string) (w : world) : world :=
  if negb (bool_decide (is_Some (asr_model w))) then
    w |> show_dialog "Please load model first."
  else if no_file (file w) then
    w |> show_dialog "Please open audio file to detect."
  else
    let w := w |> mw_get_bad_words raw in
    match bad_words w with
    | [] => w |> show_dialog "Please type bad words."
    | _ :: _ =>
        w |> set_spinner_on true |> set_results [] |> set_central_enabled false
          |> set_status "Converting audio file to wav..."
          |> set_convert_thread (Some ThreadLive)
          |> add_job (JobConvert (default "" (file w)) outfile)
          |> set_file (Some outfile)
    end.

(** Lines 127-141.  The convert thread has emitted [finished]: [terminate]
    ends nothing and [deleteLater] destroys it; the [except] branch is not
    reached, since the thread is live when its [finished] is delivered
    ([threads_inv]). *)
Definition onConvertingFinished (w : world) : world :=
  w |> set_status "Audio file is converted to wav"
    |> set_convert_thread (Some ThreadDeleted) |> set_api_thread (Some ThreadLive)
    |> add_job (JobDetect (default "" (file w)) (bad_words w))
    |> set_status "Transcribing...".

(** Lines 143-146. *)
Definition onDetectingProgress (line : string) (w : world) : world :=
  if String.eqb line "" then w else set_results (results w ++ [line]) w.

Definition newline : string := String (Ascii.ascii_of_nat 10) "".

(** Lines 148-156; the detector thread is destroyed as the convert
    thread is in [onConvertingFinished]. *)
Definition onDetectingFinished (w : world) : world :=
  w |> set_api_thread (Some ThreadDeleted) |> set_spinner_on false |> set_central_enabled true
    |> set_status "Detection is finished."
    |> show_dialog ("Finished detection." +:+ newline +:+ "Please check the result list.").

(** The slot a delivered signal runs. *)
Definition deliver (s : gui_signal) (w : world) : world :=
  match s with
  | SigModelLoaded m => onModelLoadingFinished m w
  | SigConverted => onConvertingFinished w
  | SigProgress line => onDetectingProgress line w
  | SigDetected => onDetectingFinished w
  end.

(** [ModelLoadingThread.run] (lines 166-175).  On failure the [finally]
    clause reads [asr_model], which was never assigned: it raises
    [UnboundLocalError] and [finished] is not emitted. *)
Definition run_load (outcome : res nemo_model) (w : world) : world :=
  match outcome with
  | inr m => w |> emit (SigModelLoaded m)
  | inl e => w |> write_log e
  end.

(** [ConvertThread.run] (lines 186-212): remove the output, start ffmpeg
    without waiting ([spawned] is false when [Popen] raises), emit
    [finished]. *)
Definition run_convert (spawned : bool) (src out : string) (w : world) : world :=
  let w := w |> set_fs (delete out (fs w)) in
  let w := if spawned then set_procs (procs w ++ [mk_proc src out]) w
           else w |> write_log OSError in
  w |> emit SigConverted.

(** [asr_model.transcribe([file])]: the model reads the file. *)
Definition transcribe (disk : gmap string content) (f : string) : res (string * list (list L)) :=
  match disk !! f with
  | Some c => inr (asr (audio_of c))
  | None => raise OSError
  end.

Definition to_gui (s : signal) : gui_signal :=
  match s with
  | Progress line => SigProgress line
  | Finished => SigDetected
  end.

(** [DetectorThread.run] (lines 232-289) on the file as it is on disk. *)
Definition run_detect (f : string) (bw : list string) (w : world) : world :=
  let tr := transcribe (fs w) f in
  let '(sigs, logged) :=
    Detector.run softmax bw (res_bind tr (fun r => inr (fst r)))
      (res_bind tr (fun r => inr (snd r))) in
  let w := match logged with Some e => w |> write_log e | None => w end in
  set_queue (queue w ++ map to_gui sigs) w.

(** An ffmpeg process ends: it writes the WAV of its input, if the input
    exists (with [-loglevel quiet] a failure is silent). *)
Definition ffmpeg_done (p : ffmpeg_proc) (w : world) : world :=
  match fs w !! p_in p with
  | Some c => set_fs (<[p_out p := Wav (audio_of c)]> (fs w)) w
  | None => w
  end.

(** [thread.terminate(); thread.exit(-1); thread.quit(); thread.deleteLater()]
    on the object behind one attribute, [kill] being what [terminate] stops:
    the pending [run] of that thread.  [exit] and [quit] act on an event
    loop these threads do not run.  On a destroyed object the first call
    raises. *)
Definition close_thread (h : option qthread) (kill : job -> bool)
    (set_h : option qthread -> world -> world) (w : world) : res world :=
  match h with
  | None => inr w
  | Some ThreadDeleted => raise RuntimeError
  | Some ThreadLive =>
      inr (w |> set_jobs (List.filter (fun j => negb (kill j)) (jobs w))
             |> set_h (Some ThreadDeleted))
  end.

Definition is_load (j : job) : bool := match j with JobLoad => true | _ => false end.
Definition is_convert (j : job) : bool := match j with JobConvert _ _ => true | _ => false end.
Definition is_detect (j : job) : bool := match j with JobDetect _ _ => true | _ => false end.

(** Lines 40-59: the three threads in turn inside one [try]; the bare
    [except: pass] swallows the first error and skips the rest. *)
Definition closeEvent (w : world) : world :=
  match close_thread (api_thread w) is_detect set_api_thread w with
  | inl _ => w
  | inr w1 =>
      match close_thread (model_thread w1) is_load set_model_thread w1 with
      | inl _ => w1
      | inr w2 =>
          match close_thread (convert_thread w2) is_convert set_convert_thread w2 with
          | inl _ => w2
          | inr w3 => w3
          end
      end
  end.

(** The moves of the workers, the event loop and ffmpeg. *)
Inductive sys_step : world -> world -> Prop :=
| step_run_load w pre post outcome :
    jobs w = pre ++ JobLoad :: post ->
    sys_step w (run_load outcome (set_jobs (pre ++ post) w))
| step_run_convert w pre post src out spawned :
    jobs w = pre ++ JobConvert src out :: post ->
    sys_step w (run_convert spawned src out (set_jobs (pre ++ post) w))
| step_run_detect w pre post f bw :
    jobs w = pre ++ JobDetect f bw :: post ->
    sys_step w (run_detect f bw (set_jobs (pre ++ post) w))
| step_deliver w s rest :
    queue w = s :: rest -> sys_step w (deliver s (set_queue rest w))
| step_ffmpeg w pre post p :
    procs w = pre ++ p :: post -> sys_step w (ffmpeg_done p (set_procs (pre ++ post) w)).

(** All the moves: a click on an enabled widget, or a move of the system. *)
Inductive step : world -> world -> Prop :=
| step_click_load w :
    central_enabled w = true -> load_enabled w = true ->
    step w (on_btnLoadModel_clicked w)
| step_click_open w choice :
    central_enabled w = true -> step w (on_btnOpen_clicked choice w)
| step_click_start w raw :
    central_enabled w = true -> step w (on_btnStart_clicked raw w)
| step_sys w w' : sys_step w w' -> step w w'.

Definition reachable (disk : gmap string content) (w : world) : Prop :=
  star step (init_world disk) w.
End Window.

(** The system is at rest: no job to run, no signal to deliver, no
    ffmpeg process running. *)
Definition quiescent (w : world) : Prop := jobs w = [] /\ queue w = [] /\ procs w = [].

(** ** The window is disabled exactly while a job is in flight *)

(** Signals that end a job: all but [progress]. *)
Definition completion (s : gui_signal) : bool :=
  match s with SigProgress _ => false | _ => true end.

(** Jobs started and not yet completed: not yet run, or run with their
    completion signal still queued. *)
Definition inflight (w : world) : nat :=
  length (jobs w) + length (List.filter completion (queue w)).

Definition ui_inv (w : world) : Prop :=
  spinner_on w = negb (central_enabled w) /\ inflight w <= 1
  /\ (central_enabled w = true -> inflight w = 0).

Lemma filter_completion_app q1 q2 :
  length (List.filter completion (q1 ++ q2))
  = length (List.filter completion q1) + length (List.filter completion q2).
Proof. by rewrite List.filter_app, length_app. Qed.

Lemma filter_completion_progress lines :
  length (List.filter completion (map to_gui (map Progress lines ++ [Finished]))) = 1.
Proof. induction lines as [|l lines IH]; simpl; [done|exact IH]. Qed.

Lemma jobs_remove_length (js pre post : list job) j :
  js = pre ++ j :: post -> length js = S (length (pre ++ post)).
Proof. intros ->. rewrite !length_app. simpl. lia. Qed.

#[export] Hint Rewrite filter_completion_app filter_completion_progress length_app : align.

Ltac ui_inv_simpl :=
  unfold ui_inv, inflight in *; cbn [spinner_on central_enabled jobs queue set_jobs
    set_queue set_spinner_on set_central_enabled set_status set_results set_fs set_log
    set_procs set_dialogs set_file set_bad_words set_convert_thread set_api_thread set_model_thread set_asr_model set_load_enabled
    set_file_text add_job emit write_log show_dialog run_load run_convert deliver
    onModelLoadingFinished onConvertingFinished onDetectingFinished] in *;
  autorewrite with align in *; simpl in *.

(** ** Every slot meets a live thread *)

Definition is_converted_sig (s : gui_signal) : bool :=
  match s with SigConverted => true | _ => false end.
Definition is_detected_sig (s : gui_signal) : bool :=
  match s with SigDetected => true | _ => false end.

(** A conversion, or a detection, is started and its [finished] not yet
    delivered. *)
Definition convert_pending (w : world) : bool :=
  existsb is_convert (jobs w) || existsb is_converted_sig (queue w).
Definition detect_pending (w : world) : bool :=
  existsb is_detect (jobs w) || existsb is_detected_sig (queue w).

(** The loaded model's thread is destroyed, and the attribute of a thread
    whose [finished] is still to come holds it alive: the [terminate] and
    [deleteLater] of the slots never reach a destroyed object. *)
Definition threads_inv (w : world) : Prop :=
  (is_Some (asr_model w) -> model_thread w = Some ThreadDeleted)
  /\ (convert_pending w = true -> convert_thread w = Some ThreadLive)
  /\ (detect_pending w = true -> api_thread w = Some ThreadLive).

Lemma no_completion_pending q :
  List.filter completion q = [] ->
  existsb is_converted_sig q = false /\ existsb is_detected_sig q = false.
Proof. induction q as [|[] q IH]; simpl; try done. Qed.

Lemma idle_nothing_pending w :
  inflight w = 0 -> convert_pending w = false /\ detect_pending w = false.
Proof.
  unfold inflight, convert_pending, detect_pending. intros H0.
  destruct (jobs w); [|simpl in H0; lia]. simpl.
  destruct (List.filter completion (queue w)) eqn:E; [|simpl in H0; lia].
  by apply no_completion_pending.
Qed.

Lemma to_gui_not_converted sigs : existsb is_converted_sig (map to_gui sigs) = false.
Proof. by induction sigs as [|[] sigs IH]. Qed.

Section Inv.
Context {L P : Type} `{ScoreOrder L} `{ScoreOrder P}.
Variable softmax : list (list L) -> list (list P).
Variable asr : nat -> string * list (list L).
Variable cwd : string.

Lemma start_inv raw w :
  central_enabled w = true -> ui_inv w -> ui_inv (on_btnStart_clicked cwd raw w).
Proof.
  intros Hc Hinv. unfold on_btnStart_clicked.
  destruct (negb _); [ui_inv_simpl; tauto|]. destruct (no_file (file w)); [ui_inv_simpl; tauto|].
  cbn [mw_get_bad_words bad_words set_bad_words set_convert_thread set_api_thread set_model_thread].
  destruct (get_bad_words raw); ui_inv_simpl; [tauto|].
  destruct Hinv as (_ & _ & Hidle). rewrite Hc in Hidle. specialize (Hidle eq_refl). lia.
Qed.

Lemma run_detect_inflight f bw w :
  inflight (run_detect softmax asr f bw w) = S (inflight w).
Proof.
  unfold run_detect, inflight. pose proof (run_signals softmax bw
    (res_bind (transcribe asr (fs w) f) (fun r => inr (fst r)))
    (res_bind (transcribe asr (fs w) f) (fun r => inr (snd r)))) as Hs.
  destruct (Detector.run _ _ _ _) as [sigs logged]. simpl in Hs. rewrite Hs.
  destruct logged; ui_inv_simpl; lia.
Qed.

Lemma run_detect_ui f bw w :
  spinner_on (run_detect softmax asr f bw w) = spinner_on w
  /\ central_enabled (run_detect softmax asr f bw w) = central_enabled w.
Proof.
  unfold run_detect. destruct (Detector.run _ _ _ _) as [sigs logged].
  by destruct logged.
Qed.

Lemma step_ui_inv w w' : step softmax asr cwd w w' -> ui_inv w -> ui_inv w'.
Proof.
  intros Hstep Hinv. destruct Hstep as [w Hc Hl|w choice Hc|w raw Hc|w w' Hsys];
    [| | |destruct Hsys as [w pre post outcome Hj|w pre post src out spawned Hj
    |w pre post f bw Hj|w s rest Hq|w pre post p Hp]].
  - unfold on_btnLoadModel_clicked. destruct (asr_model w); [done|].
    ui_inv_simpl. destruct Hinv as (_ & _ & Hidle). rewrite Hc in Hidle. specialize (Hidle eq_refl). lia.
  - unfold on_btnOpen_clicked. destruct (String.eqb choice ""); [done|]. by ui_inv_simpl.
  - by apply start_inv.
  - apply jobs_remove_length in Hj. destruct outcome; ui_inv_simpl;
      destruct Hinv as (Hs & Hle & Hidle); split_and!; try done; try lia;
      intros Hc; specialize (Hidle Hc); lia.
  - apply jobs_remove_length in Hj. unfold run_convert.
    destruct spawned; ui_inv_simpl; destruct Hinv as (Hs & Hle & Hidle); split_and!; try done;
      try lia; intros Hc; rewrite Hc in Hidle; specialize (Hidle eq_refl); lia.
  - apply jobs_remove_length in Hj. destruct (run_detect_ui f bw (set_jobs (pre ++ post) w)) as [Hs' Hc'].
    pose proof (run_detect_inflight f bw (set_jobs (pre ++ post) w)) as Hi.
    unfold ui_inv. rewrite Hs', Hc', Hi. ui_inv_simpl. destruct Hinv as (Hs & Hle & Hidle).
    split_and!; try done; try lia. intros Hc. rewrite Hc in Hidle. specialize (Hidle eq_refl). lia.
  - destruct s as [m| |line|]; unfold deliver.
    3: { unfold onDetectingProgress.
         destruct (String.eqb line ""); ui_inv_simpl; rewrite Hq in Hinv; simpl in Hinv; done. }
    all: ui_inv_simpl; rewrite Hq in Hinv; simpl in Hinv; destruct Hinv as (Hs & Hle & Hidle);
      split_and!; try done; try lia; intros Hc; specialize (Hidle Hc); lia.
  - unfold ffmpeg_done. cbn [fs set_procs]. destruct (fs w !! p_in p); by ui_inv_simpl.
Qed.
Lemma run_detect_threads f bw w :
  let w' := run_detect softmax asr f bw w in
  jobs w' = jobs w /\ asr_model w' = asr_model w /\ model_thread w' = model_thread w
  /\ convert_thread w' = convert_thread w /\ api_thread w' = api_thread w
  /\ exists sigs, queue w' = queue w ++ map to_gui sigs.
Proof.
  unfold run_detect. destruct (Detector.run _ _ _ _) as [sigs logged].
  destruct logged; cbn; split_and!; eauto.
Qed.

Lemma idle_of_enabled w : ui_inv w -> central_enabled w = true -> inflight w = 0.
Proof. intros (_ & _ & Hidle) Hc. by apply Hidle. Qed.

Lemma completion_head w s rest :
  ui_inv w -> queue w = s :: rest -> completion s = true ->
  jobs w = [] /\ List.filter completion rest = [].
Proof.
  intros (_ & Hle & _) Hq Hs. unfold inflight in Hle. rewrite Hq in Hle. simpl in Hle.
  rewrite Hs in Hle. simpl in Hle.
  destruct (jobs w); [|simpl in Hle; lia]. split; [done|].
  destruct (List.filter completion rest); [done|simpl in Hle; lia].
Qed.

(** A pending conversion or detection after a move was pending before. *)
Ltac pending_from H :=
  let H' := fresh in
  intros H'; apply H; rewrite ?existsb_app, ?to_gui_not_converted in *; simpl in *;
  rewrite ?orb_false_l, ?orb_false_r, ?orb_true_iff in *; intuition congruence.

Lemma step_threads_inv w w' :
  step softmax asr cwd w w' -> ui_inv w -> threads_inv w -> threads_inv w'.
Proof.
  intros Hstep Hui Hinv. destruct Hstep as [w Hc Hl|w choice Hc|w raw Hc|w w' Hsys].
  - destruct (idle_nothing_pending w (idle_of_enabled w Hui Hc)) as [Hcp Hdp].
    unfold on_btnLoadModel_clicked. destruct (asr_model w) eqn:Ha; [done|].
    unfold threads_inv, convert_pending, detect_pending in *. cbn.
    rewrite !existsb_app. simpl. rewrite !orb_false_r. rewrite Hcp, Hdp. split_and!; try done.
    by rewrite Ha.
  - unfold on_btnOpen_clicked. by destruct (String.eqb choice "").
  - destruct (idle_nothing_pending w (idle_of_enabled w Hui Hc)) as [Hcp Hdp].
    unfold on_btnStart_clicked. destruct (negb _); [done|]. destruct (no_file (file w)); [done|].
    unfold mw_get_bad_words. cbn [bad_words set_bad_words].
    destruct (get_bad_words raw); [done|].
    destruct Hinv as (Hm & _ & _). unfold detect_pending in Hdp.
    unfold threads_inv, detect_pending. cbn. rewrite !existsb_app. simpl.
    rewrite orb_false_r, Hdp. split_and!; done.
  - destruct Hinv as (Hm & Hcv & Hdt). unfold threads_inv, convert_pending, detect_pending in *.
    destruct Hsys as [w pre post outcome Hj|w pre post src out spawned Hj
      |w pre post f bw Hj|w s rest Hq|w pre post p Hp].
    + rewrite Hj in Hcv, Hdt. destruct outcome; cbn; split_and!; try done;
        [pending_from Hcv|pending_from Hdt|pending_from Hcv|pending_from Hdt].
    + rewrite Hj in Hcv, Hdt. unfold run_convert.
      destruct spawned; cbn; split_and!; try done; [pending_from Hcv|pending_from Hdt
        |pending_from Hcv|pending_from Hdt].
    + destruct (run_detect_threads f bw (set_jobs (pre ++ post) w))
        as (Hj' & Ha & Hmt & Hct & Hat & sigs & Hq').
      rewrite Hq', Hj', Ha, Hmt, Hct, Hat. cbn. rewrite Hj in Hcv, Hdt. split_and!; [done| |].
      * pending_from Hcv.
      * pending_from Hdt.
    + rewrite Hq in Hcv, Hdt. destruct s as [m| |line|].
      * cbn. split_and!; [done|pending_from Hcv|pending_from Hdt].
      * destruct (completion_head w SigConverted rest Hui Hq eq_refl) as [Hj0 Hr0].
        destruct (no_completion_pending rest Hr0) as [Hr1 _].
        cbn. rewrite Hj0. simpl. rewrite Hr1. split_and!; done.
      * cbn [deliver]. unfold onDetectingProgress.
        destruct (String.eqb line ""); cbn; split_and!; done.
      * destruct (completion_head w SigDetected rest Hui Hq eq_refl) as [Hj0 Hr0].
        destruct (no_completion_pending rest Hr0) as [_ Hr1].
        cbn. rewrite Hj0. simpl. rewrite Hr1. split_and!; try done. pending_from Hcv.
    + unfold ffmpeg_done. cbn [fs set_procs]. destruct (fs w !! p_in p); cbn; split_and!; done.
Qed.

Lemma init_threads_inv disk : threads_inv (init_world disk).
Proof. unfold threads_inv, convert_pending, detect_pending. cbn. split_and!; intros Hx; [by destruct Hx|discriminate|discriminate]. Qed.


Lemma init_ui_inv disk : ui_inv (init_world disk).
Proof. unfold ui_inv, inflight. simpl. split_and!; try done; lia. Qed.

Lemma reachable_ui_threads disk w :
  reachable softmax asr cwd disk w -> ui_inv w /\ threads_inv w.
Proof.
  intros Hr. refine (star_inv _ (fun w => ui_inv w /\ threads_inv w) _ _ _ Hr _).
  - intros a b Hs [Hu Ht]. split; [by eapply step_ui_inv|by eapply step_threads_inv].
  - split; [apply init_ui_inv|apply init_threads_inv].
Qed.

(** C28: in every reachable state the loaded model's thread is destroyed,
    and a conversion or a detection whose [finished] is still to come has
    its thread alive in [self.convert_thread] or [self.api_thread]: the
    [terminate] and [deleteLater] calls of the slots never meet a destroyed
    object. *)
Theorem reachable_threads_inv disk w : reachable softmax asr cwd disk w -> threads_inv w.
Proof. intros Hr. apply (reachable_ui_threads disk w Hr). Qed.

(** C8: in every reachable state the spinner turns exactly while the
    window is disabled, at most one job (loading, converting, detecting)
    is in flight, and the window is enabled only when none is: no click
    can start a second job while one runs. *)
Theorem reachable_ui_inv disk w : reachable softmax asr cwd disk w -> ui_inv w.
Proof.
  intros Hr. apply (star_inv _ ui_inv (step_ui_inv) _ _ Hr), init_ui_inv.
Qed.

(** A state that is disabled with nothing in flight stays so, and no model
    is ever loaded from it. *)
Definition frozen (w : world) : Prop :=
  central_enabled w = false /\ inflight w = 0 /\ asr_model w = None.

Lemma step_frozen w w' : step softmax asr cwd w w' -> frozen w -> frozen w'.
Proof.
  intros Hstep (Hc & Hi & Hm). unfold inflight in Hi.
  destruct Hstep as [w Hc' _|w choice Hc'|w raw Hc'|w w' Hsys]; [congruence..|].
  destruct Hsys as [w pre post outcome Hj|w pre post src out spawned Hj|w pre post f bw Hj
    |w s rest Hq|w pre post p Hp].
  1-3: apply jobs_remove_length in Hj; lia.
  - rewrite Hq in Hi. destruct s as [m| |line|]; simpl in Hi; try lia.
    unfold deliver, onDetectingProgress, frozen, inflight.
    destruct (String.eqb line ""); cbn; split_and!; done.
  - unfold ffmpeg_done, frozen, inflight. cbn [fs set_procs].
    destruct (fs w !! p_in p); cbn; split_and!; done.
Qed.

End Inv.

(** C7: when the model fails to load, [ModelLoadingThread.run] raises in
    its [finally] clause and never emits [finished]: the window stays
    disabled for ever, with the spinner turning, and no model is ever
    loaded.  The state is reached by a click and the failing run. *)
Theorem load_failure_freezes {L P : Type} `{ScoreOrder L} `{ScoreOrder P}
    (softmax : list (list L) -> list (list P)) asr cwd disk e :
  let w := run_load (inl e) (set_jobs [] (on_btnLoadModel_clicked (init_world disk))) in
  reachable softmax asr cwd disk w
  /\ forall w', star (step softmax asr cwd) w w' ->
       central_enabled w' = false /\ spinner_on w' = true /\ asr_model w' = None.
Proof.
  intros w. assert (Hr : reachable softmax asr cwd disk w).
  { eapply star_step; [apply step_click_load; done|].
    eapply star_step; [|apply star_refl]. apply step_sys.
    by apply (step_run_load softmax asr _ [] [] (inl e)). }
  split; [done|]. intros w' Hs.
  assert (Hf : frozen w').
  { apply (star_inv _ frozen (step_frozen softmax asr cwd) w w' Hs).
    unfold frozen, inflight. cbn. split_and!; done. }
  destruct Hf as (Hc & _ & Hm). split_and!; [done| |done].
  assert (Hu : ui_inv w').
  { apply (star_inv _ ui_inv (step_ui_inv softmax asr cwd) (init_world disk));
      [by eapply star_trans|apply init_ui_inv]. }
  destruct Hu as [Hs' _]. by rewrite Hs', Hc.
Qed.

(** ** A second detection converts the WAV onto itself *)

Section Restart.
Context {L P : Type} `{ScoreOrder L} `{ScoreOrder P}.
Variable softmax : list (list L) -> list (list P).
Variable asr : nat -> string * list (list L).
Variable cwd : string.

(** A successful click on Start (lines 113-125) queues the conversion of
    the current file into [outfile] and then replaces [self.file] by
    [outfile]. *)
Lemma start_success raw w :
  is_Some (asr_model w) -> no_file (file w) = false -> get_bad_words raw <> [] ->
  let w' := on_btnStart_clicked cwd raw w in
  jobs w' = jobs w ++ [JobConvert (default "" (file w)) (outfile cwd)]
  /\ file w' = Some (outfile cwd) /\ results w' = [] /\ central_enabled w' = false
  /\ queue w' = queue w /\ procs w' = procs w /\ fs w' = fs w /\ bad_words w' = get_bad_words raw.
Proof.
  intros Hm Hf Hbw. unfold on_btnStart_clicked.
  rewrite (bool_decide_eq_true_2 _ Hm). simpl negb. cbv iota. rewrite Hf.
  cbn [mw_get_bad_words bad_words set_bad_words set_convert_thread set_api_thread set_model_thread].
  destruct (get_bad_words raw) as [|k ks] eqn:Hg; [done|]. cbn. split_and!; done.
Qed.

(** C30: the guards of [Start], in the order of the code: a conversion
    starts, and the window is disabled, exactly when a model is loaded, a
    file is chosen and the keyword box holds a word; otherwise the click
    only shows an error message (and may re-read the keywords). *)
Theorem start_guards raw w :
  let w' := on_btnStart_clicked cwd raw w in
  (is_Some (asr_model w) /\ no_file (file w) = false /\ py_split_ws raw <> [] ->
     jobs w' = jobs w ++ [JobConvert (default "" (file w)) (outfile cwd)]
     /\ central_enabled w' = false /\ spinner_on w' = true)
  /\ (~ (is_Some (asr_model w) /\ no_file (file w) = false /\ py_split_ws raw <> []) ->
     exists msg bw, w' = show_dialog msg (set_bad_words bw w)).
Proof.
  cbv zeta. unfold on_btnStart_clicked. split.
  - intros (Hm & Hf & Hr). rewrite (bool_decide_eq_true_2 _ Hm), Hf. simpl negb. cbv iota.
    unfold mw_get_bad_words. cbn [bad_words set_bad_words].
    destruct (get_bad_words raw) eqn:E; [by apply bad_words_empty_iff in E|]. by cbn.
  - intros Hnot. destruct (decide (is_Some (asr_model w))) as [Hm|Hm].
    + rewrite (bool_decide_eq_true_2 _ Hm). simpl negb. cbv iota.
      destruct (no_file (file w)) eqn:Hf.
      * exists "Please open audio file to detect.", (bad_words w). by destruct w.
      * unfold mw_get_bad_words. cbn [bad_words set_bad_words].
        destruct (get_bad_words raw) eqn:E.
        -- by exists "Please type bad words.", [].
        -- exfalso. apply Hnot. split_and!; [done|done|]. intros Hr.
           apply bad_words_empty_iff in Hr. congruence.
    + rewrite (bool_decide_eq_false_2 _ Hm). exists "Please load model first.", (bad_words w).
      by destruct w.
Qed.

Definition restart_inv (w : world) : Prop :=
  let O := outfile cwd in
  results w = [] /\ file w = Some O
  /\ Forall (fun p => p = mk_proc O O) (procs w)
  /\ Forall (fun s => s = SigConverted \/ s = SigDetected) (queue w)
  /\ ((jobs w = [JobConvert O O] /\ queue w = [])
      \/ (fs w !! O = None /\ Forall (fun j => exists bw, j = JobDetect O bw) (jobs w))).

Lemma restart_step w w' : sys_step softmax asr w w' -> restart_inv w -> restart_inv w'.
Proof.
  intros Hs (Hres & Hfile & Hprocs & Hq & Hj). unfold restart_inv.
  destruct Hs as [w pre post outcome Hjobs|w pre post src out spawned Hjobs
    |w pre post f bw Hjobs|w s rest Hqs|w pre post p Hp].
  - exfalso. destruct Hj as [[Hj _]|[_ Hj]].
    + rewrite Hj in Hjobs. destruct pre as [|? [|]]; simpl in Hjobs; congruence.
    + destruct (Forall_middle _ _ _ _ _ Hj Hjobs) as [[bw ?] _]. congruence.
  - destruct Hj as [[Hj Hq0]|[_ Hj]].
    + rewrite Hj in Hjobs. destruct pre as [|? [|]]; simpl in Hjobs; [|congruence..].
      injection Hjobs as <- <- <-. unfold run_convert.
      destruct spawned; cbn; rewrite Hq0; split_and!; try done;
        try (right; split; [apply lookup_delete_eq|done]).
      all: apply Forall_app; split; [done|by repeat constructor].
    + exfalso. destruct (Forall_middle _ _ _ _ _ Hj Hjobs) as [[bw ?] _]. congruence.
  - destruct Hj as [[Hj _]|[Hnone Hj]].
    + exfalso. rewrite Hj in Hjobs. destruct pre as [|? [|]]; simpl in Hjobs; congruence.
    + destruct (Forall_middle _ _ _ _ _ Hj Hjobs) as [[bw' Hf] Hrest].
      injection Hf as -> ->. unfold run_detect, transcribe. cbn [fs set_jobs].
      rewrite Hnone. cbn. split_and!; try done.
      * apply Forall_app. split; [done|]. constructor; [by right|done].
      * right. by split.
  - rewrite Hqs in Hq. inversion Hq as [|? ? Hs0 Hrest]; subst.
    destruct Hs0 as [->| ->]; cbn.
    + destruct Hj as [[_ Hq0]|[Hnone Hj]]; [congruence|]. rewrite Hfile. cbn.
      split_and!; try done. right. split; [done|].
      apply Forall_app. split; [done|]. constructor; [by eexists|done].
    + split_and!; try done. destruct Hj as [[_ Hq0]|[Hnone Hj]]; [congruence|]. by right.
  - destruct (Forall_middle _ _ _ _ _ Hprocs Hp) as [-> Hrest].
    unfold ffmpeg_done. cbn [fs set_procs p_in p_out].
    destruct (fs w !! outfile cwd) as [c|] eqn:Hc; cbn; split_and!; try done;
      destruct Hj as [[Hj Hq0]|[Hnone Hj]]; [by left|congruence|by left|by right].
Qed.
(** C6: after a detection, [self.file] names [outfile] itself.  A second
    click on Start then converts [outfile] into [outfile]: the thread
    removes the file before ffmpeg reads it, so whatever the order in which
    the workers, the event loop and ffmpeg move, the WAV stays deleted and
    the detection reports nothing. *)
Theorem restart_reports_nothing w raw w' :
  is_Some (asr_model w) -> file w = Some (outfile cwd) -> get_bad_words raw <> [] ->
  jobs w = [] -> queue w = [] -> procs w = [] ->
  star (sys_step softmax asr) (on_btnStart_clicked cwd raw w) w' ->
  results w' = [] /\ (jobs w' = [JobConvert (outfile cwd) (outfile cwd)]
                     \/ fs w' !! outfile cwd = None).
Proof.
  intros Hm Hf Hbw Hj Hq Hp Hs.
  assert (Hnf : no_file (file w) = false).
  { rewrite Hf. unfold no_file. apply String.eqb_neq. by destruct cwd. }
  destruct (start_success raw w Hm Hnf Hbw) as (Hj' & Hf' & Hr' & _ & Hq' & Hp' & _).
  assert (Hinv : restart_inv (on_btnStart_clicked cwd raw w)).
  { unfold restart_inv. rewrite Hj', Hf', Hr', Hq', Hp', Hj, Hq, Hp, Hf. cbn.
    split_and!; try done. by left. }
  destruct (star_inv _ restart_inv restart_step _ _ Hs Hinv) as (Hr & _ & _ & _ & Hor).
  split; [done|]. destruct Hor as [[Hjobs _]|[Hnone _]]; [by left|by right].
Qed.
End Restart.

(** ** The outcome depends on when ffmpeg finishes *)

Section Race.
Context {L P : Type} `{ScoreOrder L} `{ScoreOrder P}.
Variable softmax : list (list L) -> list (list P).
Variable asr : nat -> string * list (list L).
Variable cwd : string.

Lemma world_eta w :
  w = {| asr_model := asr_model w; file := file w; bad_words := bad_words w;
         model_thread := model_thread w; convert_thread := convert_thread w;
         api_thread := api_thread w; spinner_on := spinner_on w;
         central_enabled := central_enabled w; load_enabled := load_enabled w;
         status := status w; file_text := file_text w; results := results w;
         dialogs := dialogs w; fs := fs w; jobs := jobs w; queue := queue w;
         procs := procs w; log := log w |}.
Proof. by destruct w. Qed.

(** The event loop delivers queued [progress] lines: each is appended to
    the result list. *)
Lemma deliver_progress ls rest w :
  queue w = map SigProgress ls ++ rest -> Forall (fun l => l <> "") ls ->
  star (sys_step softmax asr) w (set_queue rest (set_results (results w ++ ls) w)).
Proof.
  revert w; induction ls as [|l ls IH]; intros w Hq Hne.
  - simpl in Hq. rewrite app_nil_r. rewrite (world_eta w) at 1. rewrite <- Hq. apply star_refl.
  - inversion Hne as [|? ? Hl Hls]; subst.
    eapply star_step; [apply (step_deliver _ _ _ (SigProgress l) (map SigProgress ls ++ rest)); done|].
    cbn [deliver]. unfold onDetectingProgress.
    rewrite (proj2 (String.eqb_neq l "") Hl).
    eapply star_trans; [apply IH; [done|done]|]. cbn.
    rewrite <- app_assoc. apply star_refl.
Qed.

(** The common beginning of both schedules: the click on Start and the
    conversion thread's [run]. *)
Definition after_convert (raw : string) (w : world) : world :=
  run_convert true (default "" (file w)) (outfile cwd)
    (set_jobs [] (on_btnStart_clicked cwd raw w)).

Lemma start_success_eq raw w :
  is_Some (asr_model w) -> no_file (file w) = false -> get_bad_words raw <> [] ->
  on_btnStart_clicked cwd raw w
  = (w |> set_bad_words (get_bad_words raw) |> set_spinner_on true |> set_results []
       |> set_central_enabled false |> set_status "Converting audio file to wav..."
       |> set_convert_thread (Some ThreadLive)
       |> add_job (JobConvert (default "" (file w)) (outfile cwd))
       |> set_file (Some (outfile cwd))).
Proof.
  intros Hm Hf Hbw. unfold on_btnStart_clicked.
  rewrite (bool_decide_eq_true_2 _ Hm). simpl negb. cbv iota. rewrite Hf.
  unfold mw_get_bad_words. cbn [bad_words set_bad_words set_convert_thread set_api_thread set_model_thread].
  destruct (get_bad_words raw) as [|k ks] eqn:Hg; [done|]. reflexivity.
Qed.

(** The moves of a detection that reads the WAV before any ffmpeg wrote
    it: the conversion runs ([spawned] tells whether [Popen] started
    ffmpeg), its [finished] starts the detector, which finds no file. *)
Local Ltac missing_wav_chain raw src spawned Hj Hf Hq :=
  eapply star_step;
  [apply (step_run_convert _ _ _ [] [] src (outfile cwd) spawned); cbn; by rewrite Hj, Hf|];
  eapply star_step; [apply (step_deliver _ _ _ SigConverted []); cbn; by rewrite Hq|];
  eapply star_step;
  [apply (step_run_detect _ _ _ [] [] (outfile cwd) (get_bad_words raw)); by cbn|];
  unfold run_detect, transcribe at 1; cbn [fs set_jobs set_queue set_fs set_procs set_log
    set_file set_status add_job set_central_enabled set_results set_spinner_on
    set_bad_words set_convert_thread set_api_thread set_model_thread onConvertingFinished deliver run_convert emit write_log];
  rewrite lookup_delete_eq; cbn;
  eapply star_step; [apply (step_deliver _ _ _ SigDetected []); by cbn|];
  apply star_refl.

(** C5: if ffmpeg has not written the WAV when the detector thread reads
    it, which [Popen] without [wait] allows, the detection fails on a
    missing file: the window is enabled again with no result, the error is
    only in [log.txt], and ffmpeg is still running. *)
Theorem detection_before_ffmpeg w raw src c :
  is_Some (asr_model w) -> file w = Some src -> src <> "" -> fs w !! src = Some c ->
  get_bad_words raw <> [] -> jobs w = [] -> queue w = [] -> procs w = [] ->
  exists w', star (sys_step softmax asr) (on_btnStart_clicked cwd raw w) w'
    /\ central_enabled w' = true /\ results w' = [] /\ In OSError (log w')
    /\ procs w' = [mk_proc src (outfile cwd)].
Proof.
  intros Hm Hf Hsrc Hc Hbw Hj Hq Hp.
  assert (Hnf : no_file (file w) = false) by (rewrite Hf; by apply String.eqb_neq).
  rewrite (start_success_eq raw w Hm Hnf Hbw).
  eexists. split; [missing_wav_chain raw src true Hj Hf Hq|].
  - cbn. rewrite Hp. split_and!; try done. by apply in_or_app; right; left.
Qed.

(** C27: when [Popen] raises (ffmpeg is not installed), [ConvertThread]
    logs the error and still emits [finished]: the detector then reads the
    output file the thread has just removed, logs a second error, and the
    run comes to rest with the window enabled and no result. *)
Theorem detection_without_ffmpeg w raw src :
  is_Some (asr_model w) -> file w = Some src -> src <> "" ->
  get_bad_words raw <> [] -> jobs w = [] -> queue w = [] -> procs w = [] ->
  exists w', star (sys_step softmax asr) (on_btnStart_clicked cwd raw w) w'
    /\ quiescent w' /\ central_enabled w' = true /\ spinner_on w' = false
    /\ results w' = [] /\ log w' = log w ++ [OSError; OSError].
Proof.
  intros Hm Hf Hsrc Hbw Hj Hq Hp.
  assert (Hnf : no_file (file w) = false) by (rewrite Hf; by apply String.eqb_neq).
  rewrite (start_success_eq raw w Hm Hnf Hbw).
  eexists. split; [missing_wav_chain raw src false Hj Hf Hq|].
  unfold quiescent. cbn. rewrite Hp, <- app_assoc. by split_and!.
Qed.

(** The moves of a detection whose conversion ends first. *)
Local Ltac after_ffmpeg_chain raw src psrc ppost lines Hj Hf Hp Hc Hq E Hne :=
  eapply star_step;
  [apply (step_run_convert _ _ _ [] [] src (outfile cwd) true); cbn; by rewrite Hj, Hf|];
  eapply star_step;
  [apply (step_ffmpeg _ _ _ [] ppost (mk_proc psrc (outfile cwd))); cbn; by rewrite Hp|];
  unfold ffmpeg_done; cbn [fs p_in p_out set_procs run_convert set_fs set_jobs emit
    set_queue set_file add_job set_status set_central_enabled set_results set_spinner_on
    set_bad_words set_convert_thread set_api_thread set_model_thread];
  rewrite lookup_delete_ne by done; rewrite Hc;
  eapply star_step; [apply (step_deliver _ _ _ SigConverted []); cbn; by rewrite Hq|];
  eapply star_step;
  [apply (step_run_detect _ _ _ [] [] (outfile cwd) (get_bad_words raw)); by cbn|];
  unfold run_detect, transcribe, Detector.run; cbn [fs set_jobs set_queue set_fs set_procs
    set_file set_status add_job set_central_enabled set_results set_spinner_on
    set_bad_words set_convert_thread set_api_thread set_model_thread onConvertingFinished deliver emit];
  rewrite lookup_insert_eq; cbn [res_bind audio_of fst snd]; rewrite E; cbn;
  eapply star_trans;
  [apply (deliver_progress lines [SigDetected]); [by rewrite map_app, map_map | exact Hne]|];
  eapply star_step; [apply (step_deliver _ _ _ SigDetected []); by cbn|];
  apply star_refl.

(** When ffmpeg finishes before the detector thread reads the WAV,
    the run started by [Start] ends with the window enabled and idle, and
    the result list holds exactly the lines the detector computes on the
    transcription of the user's audio. *)
Theorem detection_after_ffmpeg w raw src c :
  is_Some (asr_model w) -> file w = Some src -> src <> "" -> src <> outfile cwd ->
  fs w !! src = Some c -> get_bad_words raw <> [] ->
  jobs w = [] -> queue w = [] -> procs w = [] ->
  exists w', star (sys_step softmax asr) (on_btnStart_clicked cwd raw w) w'
    /\ central_enabled w' = true /\ spinner_on w' = false
    /\ results w' = fst (run_body softmax (get_bad_words raw)
                           (inr (fst (asr (audio_of c)))) (inr (snd (asr (audio_of c)))))
    /\ jobs w' = [] /\ queue w' = [] /\ procs w' = [].
Proof.
  intros Hm Hf Hsrc Hout Hc Hbw Hj Hq Hp.
  assert (Hnf : no_file (file w) = false) by (rewrite Hf; by apply String.eqb_neq).
  pose proof (run_body_nonempty softmax (get_bad_words raw)
    (inr (fst (asr (audio_of c)))) (inr (snd (asr (audio_of c))))) as Hne.
  destruct (run_body _ _ _ _) as [lines out] eqn:E. simpl in Hne |- *.
  rewrite (start_success_eq raw w Hm Hnf Hbw).
  destruct out as [e|u]; eexists; split;
    [after_ffmpeg_chain raw src src (@nil ffmpeg_proc) lines Hj Hf Hp Hc Hq E Hne | by cbn
    |after_ffmpeg_chain raw src src (@nil ffmpeg_proc) lines Hj Hf Hp Hc Hq E Hne | by cbn].
Qed.

(** C4: end to end, when ffmpeg finishes before the detector thread reads
    the WAV, a click on [Start] leads to an idle, enabled window whose
    result list is exactly the rendered matches of the aligner's
    specification: the words [words[j + 1]] of the transcription that
    contain a keyword, with the boundaries of the space runs of the
    model's log-probabilities (the soft-max being monotone). *)
Theorem detection_reports_matches w raw src c t lg spaces :
  is_Some (asr_model w) -> file w = Some src -> src <> "" -> src <> outfile cwd ->
  fs w !! src = Some c -> get_bad_words raw <> [] ->
  jobs w = [] -> queue w = [] -> procs w = [] ->
  softmax_monotone softmax -> asr (audio_of c) = (t, lg) -> has_entry lg = true ->
  Segmenter.get_spaces lg = inr spaces -> (length spaces < length (py_split_ws t))%nat ->
  exists w', star (sys_step softmax asr) (on_btnStart_clicked cwd raw w) w'
    /\ central_enabled w' = true /\ spinner_on w' = false
    /\ jobs w' = [] /\ queue w' = [] /\ procs w' = []
    /\ results w' = map Aligner.render (Aligner.matches (get_bad_words raw) (py_split_ws t) spaces).
Proof.
  intros Hm Hf Hsrc Hout Hc Hbw Hj Hq Hp Hsm Hasr Hent Hsp Hlen.
  destruct (detection_after_ffmpeg w raw src c Hm Hf Hsrc Hout Hc Hbw Hj Hq Hp)
    as (w' & Hs & Hce & Hsp' & Hr & Hj' & Hq' & Hp').
  exists w'. split_and!; try done. rewrite Hr, Hasr. cbn [fst snd].
  by rewrite (run_body_matches softmax (get_bad_words raw) t lg spaces).
Qed.

End Race.

(** ** The workers, the event loop and ffmpeg always come to rest *)

(** What a job or a queued signal still causes: a conversion runs, queues
    [finished], whose slot starts a detection, which runs once; a load runs
    once.  Every move of the system without a click lowers [pending], or
    keeps it and lowers [backlog]. *)
Definition job_weight (j : job) : nat :=
  match j with JobLoad => 1 | JobConvert _ _ => 3 | JobDetect _ _ => 1 end.

Definition sig_weight (s : gui_signal) : nat :=
  match s with SigConverted => 2 | _ => 0 end.

Definition pending (w : world) : nat :=
  sum_list_with job_weight (jobs w) + sum_list_with sig_weight (queue w).

Definition backlog (w : world) : nat := length (queue w) + length (procs w).

Lemma sig_weight_to_gui sigs : sum_list_with sig_weight (map to_gui sigs) = 0.
Proof. induction sigs as [|[] sigs IH]; simpl; [done|done|done]. Qed.

Ltac pending_simpl := cbn; rewrite ?sum_list_with_app, ?sig_weight_to_gui, ?length_app; simpl; lia.

Section Termination.
Context {L P : Type} `{ScoreOrder L} `{ScoreOrder P}.
Variable softmax : list (list L) -> list (list P).
Variable asr : nat -> string * list (list L).

Lemma run_detect_pending f bw w :
  jobs (run_detect softmax asr f bw w) = jobs w
  /\ sum_list_with sig_weight (queue (run_detect softmax asr f bw w))
     = sum_list_with sig_weight (queue w).
Proof.
  unfold run_detect. destruct (Detector.run _ _ _ _) as [sigs logged].
  destruct logged; (split; [done|pending_simpl]).
Qed.

Lemma sys_step_measure w w' :
  sys_step softmax asr w w' ->
  pending w' < pending w \/ (pending w' = pending w /\ backlog w' < backlog w).
Proof.
  unfold pending, backlog.
  destruct 1 as [w pre post outcome Hj|w pre post src out spawned Hj
    |w pre post f bw Hj|w s rest Hq|w pre post p Hp].
  - rewrite Hj. destruct outcome; pending_simpl.
  - rewrite Hj. destruct spawned; pending_simpl.
  - destruct (run_detect_pending f bw (set_jobs (pre ++ post) w)) as [-> ->].
    rewrite Hj. pending_simpl.
  - rewrite Hq. destruct s; cbn [deliver]; unfold onDetectingProgress;
      try destruct (String.eqb _ _); pending_simpl.
  - rewrite Hp. unfold ffmpeg_done. cbn.
    destruct (fs w !! p_in p); pending_simpl.
Qed.

Lemma sys_step_wf : well_founded (fun w' w => sys_step softmax asr w w').
Proof.
  intros w. remember (pending w) as n eqn:Hn. revert w Hn.
  induction n as [n IHn] using lt_wf_ind. intros w Hn.
  remember (backlog w) as b eqn:Hb. revert w Hn Hb.
  induction b as [b IHb] using lt_wf_ind. intros w Hn Hb.
  constructor. intros w' Hs.
  destruct (sys_step_measure w w' Hs) as [Hlt|[Heq Hlt]].
  - eapply IHn; [|reflexivity]. lia.
  - eapply IHb; [| |reflexivity]; lia.
Qed.

(** C26: without clicks, the worker threads, the event loop and the ffmpeg
    processes cannot move for ever: every sequence of their moves is
    finite, whatever the model and the files. *)
Theorem sys_step_terminates :
  ~ exists run : nat -> world, forall i, sys_step softmax asr (run i) (run (S i)).
Proof. apply wf_no_chain, sys_step_wf. Qed.

End Termination.

(** ** Closing the window *)

Lemma filter_convert_kill_detect (l : list job) :
  List.filter is_convert (List.filter (fun j => negb (is_detect j)) l) = List.filter is_convert l.
Proof. induction l as [|[] l IH]; simpl; rewrite ?IH; done. Qed.

(** [closeEvent] when the model's thread is destroyed: at most the detector
    is stopped, and the [try] ends at [self.model_thread.terminate()]. *)
Lemma closeEvent_model_deleted w :
  model_thread w = Some ThreadDeleted ->
  jobs (closeEvent w) = jobs w
  \/ jobs (closeEvent w) = List.filter (fun j => negb (is_detect j)) (jobs w).
Proof.
  intros Hm. unfold closeEvent, close_thread.
  destruct (api_thread w) as [[|]|]; cbn; rewrite ?Hm; cbn; [by right|by left|by left].
Qed.

Section Close.
Context {L P : Type} `{ScoreOrder L} `{ScoreOrder P}.
Variable softmax : list (list L) -> list (list P).
Variable asr : nat -> string * list (list L).
Variable cwd : string.

(** C29: once a model is loaded, closing the window never stops a
    conversion: [self.model_thread] then names a destroyed thread, so
    [terminate] raises [RuntimeError] before the [convert_thread] branch,
    and the bare [except] hides it; every pending [ConvertThread] keeps
    running. *)
Theorem close_keeps_conversions disk w :
  reachable softmax asr cwd disk w -> is_Some (asr_model w) ->
  List.filter is_convert (jobs (closeEvent w)) = List.filter is_convert (jobs w).
Proof.
  intros Hr Hm. destruct (reachable_ui_threads softmax asr cwd disk w Hr) as (_ & Hmt & _ & _).
  destruct (closeEvent_model_deleted w (Hmt Hm)) as [->| ->]; [done|].
  apply filter_convert_kill_detect.
Qed.

End Close.

(** ** Concrete runs *)

Definition demo_disk : gmap string content := {[ "talk.mp3" := Source 7 ]}.

Definition demo_world : world :=
  init_world demo_disk |> set_asr_model (Some NemoModel) |> set_file (Some "talk.mp3").

Definition demo_softmax (lg : list (list Z)) : list (list Z) := lg.

Definition demo_asr (_ : nat) : string * list (list Z) :=
  ("the quick bad fox", [[9; 1]; [1; 9]; [9; 1]; [1; 9]; [9; 1]]%Z).

Lemma reachable_ui_inv_witness :
  ui_inv (on_btnLoadModel_clicked (init_world demo_disk)).
Proof.
  apply (reachable_ui_inv demo_softmax demo_asr "/tmp" demo_disk).
  apply star_one, step_click_load; reflexivity.
Defined.

Lemma restart_reports_nothing_witness :
  let w := demo_world |> set_file (Some (outfile "/tmp")) in
  results (on_btnStart_clicked "/tmp" "bad" w) = []
  /\ (jobs (on_btnStart_clicked "/tmp" "bad" w)
        = [JobConvert (outfile "/tmp") (outfile "/tmp")]
      \/ fs (on_btnStart_clicked "/tmp" "bad" w) !! outfile "/tmp" = None).
Proof.
  intros w. apply (restart_reports_nothing demo_softmax demo_asr "/tmp" w "bad");
    try reflexivity.
  - by eexists.
  - vm_compute. congruence.
  - apply star_refl.
Defined.

Lemma detection_before_ffmpeg_witness :
  exists w', star (sys_step demo_softmax demo_asr) (on_btnStart_clicked "/tmp" "bad" demo_world) w'
    /\ central_enabled w' = true /\ results w' = [] /\ In OSError (log w')
    /\ procs w' = [mk_proc "talk.mp3" (outfile "/tmp")].
Proof.
  apply (detection_before_ffmpeg demo_softmax demo_asr "/tmp" demo_world "bad" "talk.mp3"
           (Source 7)); try reflexivity.
  - by eexists.
  - vm_compute. congruence.
  - vm_compute. congruence.
Defined.


Lemma detection_without_ffmpeg_witness :
  exists w', star (sys_step demo_softmax demo_asr) (on_btnStart_clicked "/tmp" "bad" demo_world) w'
    /\ quiescent w' /\ central_enabled w' = true /\ spinner_on w' = false
    /\ results w' = [] /\ log w' = [OSError; OSError].
Proof.
  exact (detection_without_ffmpeg demo_softmax demo_asr "/tmp" demo_world "bad" "talk.mp3"
           (ex_intro _ NemoModel eq_refl) eq_refl ltac:(vm_compute; congruence)
           ltac:(vm_compute; congruence) eq_refl eq_refl eq_refl).
Defined.

Lemma detection_reports_matches_witness :
  exists w', star (sys_step demo_softmax demo_asr) (on_btnStart_clicked "/tmp" "bad" demo_world) w'
    /\ central_enabled w' = true /\ spinner_on w' = false
    /\ jobs w' = [] /\ queue w' = [] /\ procs w' = []
    /\ results w' = ["bad Start: 23:59:59 End: 23:59:59"].
Proof.
  destruct (detection_reports_matches demo_softmax demo_asr "/tmp" demo_world "bad" "talk.mp3"
              (Source 7) "the quick bad fox" [[9; 1]; [1; 9]; [9; 1]; [1; 9]; [9; 1]]%Z
              [(0, 0); (2, 2); (4, 4)]%nat
              (ex_intro _ NemoModel eq_refl) eq_refl ltac:(vm_compute; congruence)
              ltac:(apply String.eqb_neq; reflexivity) eq_refl ltac:(vm_compute; congruence)
              eq_refl eq_refl eq_refl softmax_monotone_id eq_refl eq_refl eq_refl
              ltac:(simpl; lia))
    as (w' & Hs & Hc & Hsp & Hj & Hq & Hp & Hr).
  exists w'. split_and!; done.
Defined.

(** Load the model, open a file, click [Start]: a conversion is pending. *)
Definition demo_converting : world :=
  on_btnStart_clicked "/tmp" "bad"
    (on_btnOpen_clicked "talk.mp3"
       (deliver (SigModelLoaded NemoModel)
          (set_queue [] (run_load (inr NemoModel)
             (set_jobs [] (on_btnLoadModel_clicked (init_world demo_disk))))))).

Lemma demo_converting_reachable : reachable demo_softmax demo_asr "/tmp" demo_disk demo_converting.
Proof.
  unfold reachable, demo_converting.
  eapply star_step; [apply step_click_load; reflexivity|].
  eapply star_step; [apply step_sys, (step_run_load _ _ _ [] [] (inr NemoModel)); reflexivity|].
  eapply star_step; [apply step_sys, (step_deliver _ _ _ (SigModelLoaded NemoModel) []); reflexivity|].
  eapply star_step; [apply (step_click_open _ _ _ _ "talk.mp3"); reflexivity|].
  eapply star_step; [apply (step_click_start _ _ _ _ "bad"); reflexivity|].
  apply star_refl.
Qed.

Lemma reachable_threads_inv_witness : threads_inv demo_converting.
Proof. exact (reachable_threads_inv demo_softmax demo_asr "/tmp" demo_disk _ demo_converting_reachable). Defined.

Lemma close_keeps_conversions_witness :
  List.filter is_convert (jobs (closeEvent demo_converting))
  = [JobConvert "talk.mp3" (outfile "/tmp")].
Proof.
  rewrite (close_keeps_conversions demo_softmax demo_asr "/tmp" demo_disk demo_converting
             demo_converting_reachable ltac:(by eexists)).
  reflexivity.
Defined.

Lemma start_guards_witness :
  jobs (on_btnStart_clicked "/tmp" "bad" demo_world) = [JobConvert "talk.mp3" (outfile "/tmp")]
  /\ exists msg bw, on_btnStart_clicked "/tmp" "  " demo_world
                    = show_dialog msg (set_bad_words bw demo_world).
Proof.
  split.
  - apply (start_guards "/tmp" "bad" demo_world).
    split_and!; [by eexists|reflexivity|discriminate].
  - apply (start_guards "/tmp" "  " demo_world). intros (_ & _ & H). by apply H.
Defined.

End Controller.
